(** * Client runtime of the battle-royale shooter: model and properties

    A shallow embedding of [client.js] (input handling, local prediction,
    snapshot storage, per-frame rendering driver) and of the mobile bridge
    script, with the properties of the design document stated against it.

    JavaScript numbers are modelled as exact rationals ([Q]): every value a
    double can hold is a rational, and the statements below are about the
    control flow and the order of assignments, not about rounding.  A
    [TypeError] (reading a property of [undefined] or [null]) is modelled by
    [None] in the option monad. *)

From Stdlib Require Import QArith Qround Lqa ZArith List Bool Ascii.
From stdpp Require Import base option list gmap.

Local Open Scope Q_scope.

(** ** Numbers *)

(** The JavaScript comparison [x < y] on numbers. *)
Definition Qltb (x y : Q) : bool :=
  (Qnum x * QDen y <? Qnum y * QDen x)%Z.

(** [Math.max] and [Math.min] on two numbers. *)
Definition Math_max (x y : Q) : Q := if Qltb x y then y else x.
Definition Math_min (x y : Q) : Q := if Qltb y x then y else x.

(** [Math.PI], the double nearest to pi, which is this dyadic rational. *)
Definition Math_PI : Q := 884279719003555 # 281474976710656.

(** ** Data model *)

(** A [Float32Array] of length three ([tempVec], [forward], [origin]). *)
Record Vec3 := mkVec3 { v0 : Q; v1 : Q; v2 : Q }.

(** The type tags the client script uses; the remaining members of the
    enumeration are kept by their numeric tag. *)
Inductive EntityType :=
| PLAYER
| JOIN
| SHOOT
| OTHER (tag : Z).

(** [new GameEntity(type, x, y, z, dx, dy, dz)]. *)
Record GameEntity := mkEntity {
  e_type : EntityType;
  e_x : Q; e_y : Q; e_z : Q;
  e_dx : Q; e_dy : Q; e_dz : Q
}.

(** The [player] object: a [GameEntity] of type [PLAYER] on which the script
    sets the extra fields [name], [pitch], [yaw] and [actions]. *)
Record Player := mkPlayer {
  p_x : Q; p_y : Q; p_z : Q;
  p_dx : Q; p_dy : Q; p_dz : Q;
  p_name : list ascii;
  p_pitch : Q;
  p_yaw : Q;
  p_actions : list GameEntity
}.

(** One entry of the [keys] table. *)
Record Key := mkKey { down : bool; downCount : Z }.

(** The payload of an ['update'] event.  [entities] may be missing. *)
Record ServerGameState := mkSnapshot {
  gameId : Z;
  seed : Z;
  started : bool;
  aliveCount : Z;
  entities : option (list GameEntity)
}.

(** Snapshots are objects: the script holds a reference to one of them. *)
Definition loc := positive.

(** What one vertex-buffer entry holds, as far as drawing order goes. *)
Inductive Quad :=
| WorldQuad (n : nat)
| EntityQuad (e : GameEntity)
| BlueCircleQuad.

(** Calls made on the WebGL side during a frame, in order. *)
Inductive GlCall :=
| UpdateBuffers (dynamic : list Quad)
| ResetGl
| SetupCamera
| Render (quads : list Quad)
| DrawHud.

(** ** What the scripts import from elsewhere

    Constants, the terrain query, the gl-matrix rotations, the snapshot
    accessors and the per-frame key bookkeeping are defined outside the
    scripts modelled here. *)
Class Env := {
  GameMap : Type;
  newGameMap : Z -> GameMap;
  getY : GameMap -> Q -> Q -> Q;
  RUN_SPEED : Q;
  GRAVITY : Q;
  PLAYER_HALF_HEIGHT : Q;
  JUMP_POWER : Q;
  LOBBY_ID : Z;
  forward : Vec3;
  origin : Vec3;
  rotateX : Vec3 -> Vec3 -> Q -> Vec3;
  rotateY : Vec3 -> Vec3 -> Q -> Vec3;
  normalizeRadians : Q -> Q;
  updateKeys : list Key -> list Key;
  isStarted : ServerGameState -> bool;
  isCurrentPlayerAlive : ServerGameState -> bool;
  Math_cos : Q -> Q;
  Math_sin : Q -> Q;
  worldQuads : GameMap -> list Quad
}.

(** Key codes.  The bridge script spells out [KEY_W], [KEY_S], [KEY_A],
    [KEY_D] and [KEY_SPACE]; the others are the DOM key codes of the keys
    they name. *)
Definition KEY_ESCAPE : nat := 27.
Definition KEY_SPACE : nat := 32.
Definition KEY_LEFT : nat := 37.
Definition KEY_UP : nat := 38.
Definition KEY_RIGHT : nat := 39.
Definition KEY_DOWN : nat := 40.
Definition KEY_A : nat := 65.
Definition KEY_D : nat := 68.
Definition KEY_M : nat := 77.
Definition KEY_Q : nat := 81.
Definition KEY_S : nat := 83.
Definition KEY_W : nat := 87.
Definition KEY_Z : nat := 90.


(** ** The script's global variables *)

Section Client.
Context `{Env}.

Record Client := mkClient {
  player : Player;
  localEntities : list GameEntity;
  keys : list Key;
  tempVec : Vec3;
  (* snapshot objects and the reference held in [gameState] *)
  heap : gmap loc ServerGameState;
  gameState : option loc;
  gameMap : option GameMap;
  staticBuffers : option (list Quad);
  dynamicBuffers : option (list Quad);
  pointerLocked : bool;
  mapOpen : bool;
  zoom : bool;
  zoomLevel : Z;
  then_ : Q;
  (* the bridge script's closure variables *)
  isMobile : bool;
  joystickAngle : Q;
  joystickForce : Q;
  joystickActive : bool;
  (* whether [window.player], [window.keys] and [window.shoot] resolve to
     the script's [player], [keys] and [shoot] in the page the bridge is
     loaded into *)
  windowPlayer : bool;
  windowKeys : bool;
  windowShoot : bool;
  (* what has been sent to WebGL and the HUD so far *)
  glCalls : list GlCall
}.

Definition set_player (p : Player) (c : Client) : Client :=
  mkClient p (localEntities c) (keys c) (tempVec c) (heap c) (gameState c)
    (gameMap c) (staticBuffers c) (dynamicBuffers c) (pointerLocked c)
    (mapOpen c) (zoom c) (zoomLevel c) (then_ c) (isMobile c)
    (joystickAngle c) (joystickForce c) (joystickActive c) (windowPlayer c)
    (windowKeys c) (windowShoot c) (glCalls c).

Definition set_keys (ks : list Key) (c : Client) : Client :=
  mkClient (player c) (localEntities c) ks (tempVec c) (heap c) (gameState c)
    (gameMap c) (staticBuffers c) (dynamicBuffers c) (pointerLocked c)
    (mapOpen c) (zoom c) (zoomLevel c) (then_ c) (isMobile c)
    (joystickAngle c) (joystickForce c) (joystickActive c) (windowPlayer c)
    (windowKeys c) (windowShoot c) (glCalls c).

Definition set_tempVec (v : Vec3) (c : Client) : Client :=
  mkClient (player c) (localEntities c) (keys c) v (heap c) (gameState c)
    (gameMap c) (staticBuffers c) (dynamicBuffers c) (pointerLocked c)
    (mapOpen c) (zoom c) (zoomLevel c) (then_ c) (isMobile c)
    (joystickAngle c) (joystickForce c) (joystickActive c) (windowPlayer c)
    (windowKeys c) (windowShoot c) (glCalls c).

Definition set_gameState (g : option loc) (c : Client) : Client :=
  mkClient (player c) (localEntities c) (keys c) (tempVec c) (heap c) g
    (gameMap c) (staticBuffers c) (dynamicBuffers c) (pointerLocked c)
    (mapOpen c) (zoom c) (zoomLevel c) (then_ c) (isMobile c)
    (joystickAngle c) (joystickForce c) (joystickActive c) (windowPlayer c)
    (windowKeys c) (windowShoot c) (glCalls c).

Definition set_gameMap (m : option GameMap) (c : Client) : Client :=
  mkClient (player c) (localEntities c) (keys c) (tempVec c) (heap c)
    (gameState c) m (staticBuffers c) (dynamicBuffers c) (pointerLocked c)
    (mapOpen c) (zoom c) (zoomLevel c) (then_ c) (isMobile c)
    (joystickAngle c) (joystickForce c) (joystickActive c) (windowPlayer c)
    (windowKeys c) (windowShoot c) (glCalls c).

Definition set_staticBuffers (b : option (list Quad)) (c : Client) : Client :=
  mkClient (player c) (localEntities c) (keys c) (tempVec c) (heap c)
    (gameState c) (gameMap c) b (dynamicBuffers c) (pointerLocked c)
    (mapOpen c) (zoom c) (zoomLevel c) (then_ c) (isMobile c)
    (joystickAngle c) (joystickForce c) (joystickActive c) (windowPlayer c)
    (windowKeys c) (windowShoot c) (glCalls c).

Definition set_dynamicBuffers (b : option (list Quad)) (c : Client) : Client :=
  mkClient (player c) (localEntities c) (keys c) (tempVec c) (heap c)
    (gameState c) (gameMap c) (staticBuffers c) b (pointerLocked c)
    (mapOpen c) (zoom c) (zoomLevel c) (then_ c) (isMobile c)
    (joystickAngle c) (joystickForce c) (joystickActive c) (windowPlayer c)
    (windowKeys c) (windowShoot c) (glCalls c).

Definition set_mapOpen (b : bool) (c : Client) : Client :=
  mkClient (player c) (localEntities c) (keys c) (tempVec c) (heap c)
    (gameState c) (gameMap c) (staticBuffers c) (dynamicBuffers c)
    (pointerLocked c) b (zoom c) (zoomLevel c) (then_ c) (isMobile c)
    (joystickAngle c) (joystickForce c) (joystickActive c) (windowPlayer c)
    (windowKeys c) (windowShoot c) (glCalls c).

Definition set_zoom (b : bool) (c : Client) : Client :=
  mkClient (player c) (localEntities c) (keys c) (tempVec c) (heap c)
    (gameState c) (gameMap c) (staticBuffers c) (dynamicBuffers c)
    (pointerLocked c) (mapOpen c) b (zoomLevel c) (then_ c) (isMobile c)
    (joystickAngle c) (joystickForce c) (joystickActive c) (windowPlayer c)
    (windowKeys c) (windowShoot c) (glCalls c).

Definition set_then (t : Q) (c : Client) : Client :=
  mkClient (player c) (localEntities c) (keys c) (tempVec c) (heap c)
    (gameState c) (gameMap c) (staticBuffers c) (dynamicBuffers c)
    (pointerLocked c) (mapOpen c) (zoom c) (zoomLevel c) t (isMobile c)
    (joystickAngle c) (joystickForce c) (joystickActive c) (windowPlayer c)
    (windowKeys c) (windowShoot c) (glCalls c).

Definition set_isMobile (b : bool) (c : Client) : Client :=
  mkClient (player c) (localEntities c) (keys c) (tempVec c) (heap c)
    (gameState c) (gameMap c) (staticBuffers c) (dynamicBuffers c)
    (pointerLocked c) (mapOpen c) (zoom c) (zoomLevel c) (then_ c) b
    (joystickAngle c) (joystickForce c) (joystickActive c) (windowPlayer c)
    (windowKeys c) (windowShoot c) (glCalls c).

Definition set_joystick (angle force : Q) (active : bool) (c : Client)
  : Client :=
  mkClient (player c) (localEntities c) (keys c) (tempVec c) (heap c)
    (gameState c) (gameMap c) (staticBuffers c) (dynamicBuffers c)
    (pointerLocked c) (mapOpen c) (zoom c) (zoomLevel c) (then_ c)
    (isMobile c) angle force active (windowPlayer c) (windowKeys c)
    (windowShoot c) (glCalls c).

Definition gl (call : GlCall) (c : Client) : Client :=
  mkClient (player c) (localEntities c) (keys c) (tempVec c) (heap c)
    (gameState c) (gameMap c) (staticBuffers c) (dynamicBuffers c)
    (pointerLocked c) (mapOpen c) (zoom c) (zoomLevel c) (then_ c)
    (isMobile c) (joystickAngle c) (joystickForce c) (joystickActive c)
    (windowPlayer c) (windowKeys c) (windowShoot c)
    (glCalls c ++ [call]).

(** Field updates on the player object. *)
Definition set_velocity (dx dy dz : Q) (p : Player) : Player :=
  mkPlayer (p_x p) (p_y p) (p_z p) dx dy dz (p_name p) (p_pitch p) (p_yaw p)
    (p_actions p).

Definition set_position (x y z : Q) (p : Player) : Player :=
  mkPlayer x y z (p_dx p) (p_dy p) (p_dz p) (p_name p) (p_pitch p) (p_yaw p)
    (p_actions p).

Definition set_orientation (pitch yaw : Q) (p : Player) : Player :=
  mkPlayer (p_x p) (p_y p) (p_z p) (p_dx p) (p_dy p) (p_dz p) (p_name p)
    pitch yaw (p_actions p).

Definition push_action (a : GameEntity) (p : Player) : Player :=
  mkPlayer (p_x p) (p_y p) (p_z p) (p_dx p) (p_dy p) (p_dz p) (p_name p)
    (p_pitch p) (p_yaw p) (p_actions p ++ [a]).


(** ** The local predictor: [handleKeys] *)

(** [keys[a].down || keys[b].down || ...], evaluated left to right; a
    missing entry is only an error if the evaluation reaches it. *)
Fixpoint any_down (ks : list Key) (codes : list nat) : option bool :=
  match codes with
  | [] => Some false
  | code :: rest =>
      k ← ks !! code;
      if down k then Some true else any_down ks rest
  end.

(** The body shared by the four movement branches. *)
Definition run (held : bool) (dx dz : Q) (p : Player) : Player :=
  if held then set_velocity dx (p_dy p - 0.02) dz p else p.

(** Lines 288 to 310: the velocity set from the held movement keys, with
    [t] the value [tempVec] holds after the rotation by the yaw. *)
Definition applyMovementKeys (ks : list Key) (t : Vec3) (p : Player)
  : option Player :=
  let p := set_velocity 0 (p_dy p) 0 p in
  up ← any_down ks [KEY_UP; KEY_W; KEY_Z];
  let p := run up (RUN_SPEED * v0 t) (RUN_SPEED * v2 t) p in
  dn ← any_down ks [KEY_DOWN; KEY_S];
  let p := run dn (- RUN_SPEED * v0 t) (- RUN_SPEED * v2 t) p in
  lf ← any_down ks [KEY_LEFT; KEY_A; KEY_Q];
  let p := run lf (- RUN_SPEED * v2 t) (RUN_SPEED * v0 t) p in
  rt ← any_down ks [KEY_RIGHT; KEY_D];
  Some (run rt (RUN_SPEED * v2 t) (- RUN_SPEED * v0 t) p).

(** Line 311: whether the map overlay is toggled this frame. *)
Definition mapToggled (ks : list Key) (isOpen : bool) : option bool :=
  m ← ks !! KEY_M;
  if (downCount m =? 1)%Z then Some true
  else if isOpen then e ← ks !! KEY_ESCAPE; Some (downCount e =? 1)%Z
  else Some false.

(** Lines 312 to 316: the overlay flag after a toggle. *)
Definition toggleMap (toggle isOpen : bool) : bool :=
  if toggle then if negb isOpen then true else false else isOpen.

(** Lines 319 to 323: position and gravity. *)
Definition integrate (deltaTime : Q) (p : Player) : Player :=
  let x := p_x p + deltaTime * p_dx p in
  let z := p_z p + deltaTime * p_dz p in
  let dy := p_dy p - deltaTime * GRAVITY in
  let y := p_y p + deltaTime * dy in
  set_position x y z (set_velocity (p_dx p) dy (p_dz p) p).

(** Lines 325 to 333: the ground clamp and the jump. *)
Definition clampToGround (m : GameMap) (ks : list Key) (p : Player)
  : option Player :=
  let groundY := getY m (p_x p) (p_z p) in
  if Qltb (p_y p) (groundY + PLAYER_HALF_HEIGHT) then
    let p := set_velocity (p_dx p) 0 (p_dz p) p in
    let p := set_position (p_x p) (groundY + PLAYER_HALF_HEIGHT) (p_z p) p in
    space ← ks !! KEY_SPACE;
    if (downCount space =? 1)%Z
    then Some (set_velocity (p_dx p) JUMP_POWER (p_dz p) p)
    else Some p
  else Some p.

(** The player as it stands after line 323, before the ground is queried. *)
Definition beforeClamp (deltaTime : Q) (c : Client) : option Player :=
  let ks := updateKeys (keys c) in
  let t := rotateY forward origin (p_yaw (player c)) in
  p ← applyMovementKeys ks t (player c);
  _ ← mapToggled ks (mapOpen c);
  Some (integrate deltaTime p).

Definition handleKeys (deltaTime : Q) (c : Client) : option Client :=
  match gameMap c with
  | None => Some c
  | Some m =>
      let ks := updateKeys (keys c) in
      let t := rotateY forward origin (p_yaw (player c)) in
      p ← applyMovementKeys ks t (player c);
      toggle ← mapToggled ks (mapOpen c);
      let isOpen := toggleMap toggle (mapOpen c) in
      p ← clampToGround m ks (integrate deltaTime p);
      Some (set_player p (set_mapOpen isOpen (set_tempVec t (set_keys ks c))))
  end.

(** ** Snapshots, firing and the pointer *)

(** [socket.on('update', ...)]: [l] is the reference to the snapshot object
    the socket library built from the payload. *)
Definition onUpdate (l : loc) (c : Client) : Client :=
  set_gameState (Some l) c.

Definition createClientEvent (eventType : EntityType) (c : Client) : Client :=
  let p := player c in
  let t := rotateX forward origin (p_pitch p) in
  let t := rotateY t origin (p_yaw p) in
  let e := mkEntity eventType (p_x p) (p_y p) (p_z p) (v0 t) (v1 t) (v2 t) in
  set_player (push_action e p) (set_tempVec t c).

(** Lines 112 to 119 of [shoot()], past the guard; [r1] and [r2] are the
    two values [Math.random()] returns. *)
Definition fire (r1 r2 : Q) (c : Client) : Client :=
  let c := createClientEvent SHOOT c in
  let p := player c in
  let pitch := p_pitch p - 0.02 * r1 in
  let yaw := p_yaw p + (0.02 * r2 - 0.01) in
  set_player (set_orientation pitch yaw p) c.

(** [shoot()]: nothing happens when there is a snapshot and it does not
    show the player alive. *)
Definition shoot (r1 r2 : Q) (c : Client) : option Client :=
  match gameState c with
  | None => Some (fire r1 r2 c)
  | Some l =>
      g ← heap c !! l;
      if negb (isCurrentPlayerAlive g) then Some c else Some (fire r1 r2 c)
  end.

(** The [keydown] listener. *)
Definition onKeyDown (key : ascii) (r1 r2 : Q) (c : Client)
  : option Client :=
  if Ascii.eqb key "f"%char || Ascii.eqb key "F"%char then shoot r1 r2 c
  else Some c.

(** The [mousedown] and [mouseup] listeners and [toggleZoom]. *)
Definition onMouseDown (button : Z) (c : Client) : Client :=
  if (button =? 2)%Z then set_zoom true c else c.

Definition onMouseUp (button : Z) (c : Client) : Client :=
  if (button =? 2)%Z then set_zoom false c else c.

Definition toggleZoom (c : Client) : Client := set_zoom (negb (zoom c)) c.

(** The factor [handleMouseMoveEvent] multiplies the movement by. *)
Definition sensitivity (c : Client) : Q :=
  if zoom c then 0.0001 else 0.001.

Definition handleMouseMoveEvent (movementX movementY : Q) (c : Client)
  : Client :=
  let p := player c in
  let yaw := normalizeRadians (p_yaw p + sensitivity c * movementX) in
  let pitch := normalizeRadians (p_pitch p + sensitivity c * movementY) in
  set_player (set_orientation pitch yaw p) c.

(** [initGame()]: the map is built from the seed of the stored snapshot and
    the static buffers from the map. *)
Definition initGame (c : Client) : option Client :=
  l ← gameState c;
  g ← heap c !! l;
  let m := newGameMap (seed g) in
  Some (set_staticBuffers (Some (worldQuads m))
         (set_dynamicBuffers (Some []) (set_gameMap (Some m) c))).

(** ** The frame: [render]

    Modelled from the spec: the [BufferSet] class and the helpers
    [renderEntities] and [addBlueCircleQuads] are not among the sources.  A
    buffer set is the ordered sequence of its entries; [resetBuffers] empties
    it, [renderEntities] appends one entry per entity in list order,
    [addBlueCircleQuads] appends the translucent circle wall, [updateBuffers]
    uploads the sequence and [render] draws it in order. *)
Definition resetBuffers (b : list Quad) : list Quad := [].

Definition renderEntities (es : list GameEntity) (b : list Quad)
  : list Quad :=
  b ++ map EntityQuad es.

Definition addBlueCircleQuads (b : list Quad) : list Quad :=
  b ++ [BlueCircleQuad].

(** Lines 214 to 236, for the snapshot [g] that [gameState] refers to. *)
Definition renderScene (g : ServerGameState) (c : Client) : option Client :=
  dyn ← dynamicBuffers c;
  let dyn := resetBuffers dyn in
  let dyn :=
    match entities g with
    | Some es => renderEntities es dyn
    | None => dyn
    end in
  let dyn := renderEntities (localEntities c) dyn in
  let dyn := if isStarted g then addBlueCircleQuads dyn else dyn in
  let c := set_dynamicBuffers (Some dyn) c in
  let c := gl SetupCamera (gl ResetGl (gl (UpdateBuffers dyn) c)) in
  sta ← staticBuffers c;
  Some (gl (Render dyn) (gl (Render sta) c)).

(** [render(now)], up to the request for the next frame. *)
Definition render (now : Q) (c : Client) : option Client :=
  let now := now * 0.001 in
  let deltaTime := now - then_ c in
  let c := set_then now c in
  c ← handleKeys deltaTime c;
  c ← match gameState c with
      | None => Some c
      | Some l =>
          g ← heap c !! l;
          if negb (gameId g =? LOBBY_ID)%Z then renderScene g c else Some c
      end;
  Some (gl DrawHud c).

(** ** The mobile bridge *)

Inductive BridgeMessage :=
| ENABLE_POINTER_LOCK (mobile : bool)
| JOYSTICK_MOVE (angle force : Q)
| JOYSTICK_END
| CAMERA_MOVE (deltaX deltaY : Q)
| SHOOT_MESSAGE
| JUMP_MESSAGE
| OTHER_MESSAGE.

(** [window.keys[code].down = b]. *)
Definition set_down (code : nat) (b : bool) (ks : list Key)
  : option (list Key) :=
  k ← ks !! code;
  Some (<[code := mkKey b (downCount k)]> ks).

Definition press_if (cond : bool) (code : nat) (ks : list Key)
  : option (list Key) :=
  if cond then set_down code true ks else Some ks.

Definition handleJoystickMovement (c : Client) : option Client :=
  if negb (joystickActive c) || negb (windowPlayer c) then Some c
  else
    let moveX := Math_cos (joystickAngle c) * joystickForce c in
    let moveY := Math_sin (joystickAngle c) * joystickForce c in
    if windowKeys c then
      ks ← set_down KEY_W false (keys c);
      ks ← set_down KEY_S false ks;
      ks ← set_down KEY_A false ks;
      ks ← set_down KEY_D false ks;
      ks ← press_if (Qltb moveY (-0.3)) KEY_W ks;
      ks ← press_if (Qltb 0.3 moveY) KEY_S ks;
      ks ← press_if (Qltb moveX (-0.3)) KEY_A ks;
      ks ← press_if (Qltb 0.3 moveX) KEY_D ks;
      Some (set_keys ks c)
    else Some c.

Definition handleCameraMove (deltaX deltaY : Q) (c : Client) : Client :=
  if negb (windowPlayer c) then c
  else
    let p := player c in
    let yaw := p_yaw p + 0.002 * deltaX in
    let pitch := p_pitch p + 0.002 * deltaY in
    let maxPitch := Math_PI / 2 - 0.1 in
    let pitch := Math_max (- maxPitch) (Math_min maxPitch pitch) in
    set_player (set_orientation pitch yaw p) c.

Definition handleShoot (r1 r2 : Q) (c : Client) : option Client :=
  if windowShoot c then shoot r1 r2 c else Some c.

Definition handleJump (c : Client) : Client :=
  if windowKeys c then
    match keys c !! KEY_SPACE with
    | Some k => set_keys (<[KEY_SPACE := mkKey (down k) 1]> (keys c)) c
    | None => c
    end
  else c.

(** The [message] listener; [r1] and [r2] are the values [Math.random()]
    would return if the message leads to a shot. *)
Definition onMessage (message : BridgeMessage) (r1 r2 : Q) (c : Client)
  : option Client :=
  match message with
  | ENABLE_POINTER_LOCK mobile => Some (set_isMobile mobile c)
  | JOYSTICK_MOVE angle force =>
      handleJoystickMovement (set_joystick angle force true c)
  | JOYSTICK_END => Some (set_joystick (joystickAngle c) 0 false c)
  | CAMERA_MOVE deltaX deltaY => Some (handleCameraMove deltaX deltaY c)
  | SHOOT_MESSAGE => handleShoot r1 r2 c
  | JUMP_MESSAGE => Some (handleJump c)
  | OTHER_MESSAGE => Some c
  end.

End Client.

(** ** The session as a whole *)

Section Session.
Context `{Env}.

(** The script's state when it has been loaded (lines 7 to 41); the player
    name comes from local storage and the key table from the key script. *)
Definition initial (name : list ascii) (ks : list Key) (wp wk ws : bool)
  : Client :=
  {| player := mkPlayer 0 200 0 0 0 0 name 0.1 0.1 [];
     localEntities := [];
     keys := ks;
     tempVec := mkVec3 0 0 0;
     heap := ∅;
     gameState := None;
     gameMap := None;
     staticBuffers := None;
     dynamicBuffers := None;
     pointerLocked := false;
     mapOpen := false;
     zoom := false;
     zoomLevel := 0;
     then_ := 0;
     isMobile := false;
     joystickAngle := 0;
     joystickForce := 0;
     joystickActive := false;
     windowPlayer := wp;
     windowKeys := wk;
     windowShoot := ws;
     glCalls := [] |}.

(** What can happen to the page, one listener invocation at a time. *)
Inductive Event :=
| Update (l : loc) (g : ServerGameState)
| KeyDown (key : ascii) (r1 r2 : Q)
| MouseDown (button : Z)
| MouseUp (button : Z)
| ToggleZoom
| LockChange (locked : bool)
| MouseMove (movementX movementY : Q)
| Message (m : BridgeMessage) (r1 r2 : Q)
| InitGame
| Frame (now : Q)
| KeyEvent (code : nat) (k : Key).

Definition set_pointerLocked (b : bool) (c : Client) : Client :=
  mkClient (player c) (localEntities c) (keys c) (tempVec c) (heap c)
    (gameState c) (gameMap c) (staticBuffers c) (dynamicBuffers c) b
    (mapOpen c) (zoom c) (zoomLevel c) (then_ c) (isMobile c)
    (joystickAngle c) (joystickForce c) (joystickActive c) (windowPlayer c)
    (windowKeys c) (windowShoot c) (glCalls c).

Definition set_heap (h : gmap loc ServerGameState) (c : Client) : Client :=
  mkClient (player c) (localEntities c) (keys c) (tempVec c) h
    (gameState c) (gameMap c) (staticBuffers c) (dynamicBuffers c)
    (pointerLocked c) (mapOpen c) (zoom c) (zoomLevel c) (then_ c)
    (isMobile c) (joystickAngle c) (joystickForce c) (joystickActive c)
    (windowPlayer c) (windowKeys c) (windowShoot c) (glCalls c).

(** [Update l g]: the socket library has built the object [g] at the fresh
    reference [l] and calls the listener with it.  [LockChange] is
    [handleLockChangeEvent], which also adds or removes the mouse-move
    listener, so that [MouseMove] reaches [handleMouseMoveEvent] only while
    the pointer is locked.  [KeyEvent] stands for the key script's
    listeners, which write one entry of the table.  The click listener,
    which also reaches the sound script, the HUD and local storage, is
    [onClick] on the whole page, further down. *)
Definition dispatch (e : Event) (c : Client) : option Client :=
  match e with
  | Update l g =>
      match heap c !! l with
      | None => Some (onUpdate l (set_heap (<[l := g]> (heap c)) c))
      | Some _ => None
      end
  | KeyDown key r1 r2 => onKeyDown key r1 r2 c
  | MouseDown button => Some (onMouseDown button c)
  | MouseUp button => Some (onMouseUp button c)
  | ToggleZoom => Some (toggleZoom c)
  | LockChange locked => Some (set_pointerLocked locked c)
  | MouseMove mx my =>
      if pointerLocked c then Some (handleMouseMoveEvent mx my c) else Some c
  | Message m r1 r2 => onMessage m r1 r2 c
  | InitGame => initGame c
  | Frame now => render now c
  | KeyEvent code k => Some (set_keys (<[code := k]> (keys c)) c)
  end.

(** The states the page can be in. *)
Inductive reachable (name : list ascii) (ks : list Key) (wp wk ws : bool)
  : Client -> Prop :=
| reach_initial : reachable name ks wp wk ws (initial name ks wp wk ws)
| reach_step e c c' :
    reachable name ks wp wk ws c ->
    dispatch e c = Some c' ->
    reachable name ks wp wk ws c'.

(** [n] presses of the F key one after the other, each shot drawing [r1]
    and [r2] for its recoil; a press that fails leaves the page as it
    is. *)
Definition volley (r1 r2 : Q) (n : nat) (c : Client) : Client :=
  Nat.iter n (fun c => default c (dispatch (KeyDown "f" r1 r2) c)) c.

(** Whether the key table, once [updateKeys] has run, has its 256 entries. *)
Definition keysReady (c : Client) : Prop :=
  (256 <= length (updateKeys (keys c)))%nat.

(** [keys[code].down], [false] when there is no such entry. *)
Definition isDown (ks : list Key) (code : nat) : bool :=
  match ks !! code with Some k => down k | None => false end.

Definition anyDown (ks : list Key) (codes : list nat) : bool :=
  existsb (isDown ks) codes.

(** The velocity the movement branches leave: the last branch taken wins,
    in the order forward, backward, left, right. *)
Definition byPrecedence (ks : list Key) (t : Vec3) : Q * Q :=
  if anyDown ks [KEY_RIGHT; KEY_D]
  then (RUN_SPEED * v2 t, - RUN_SPEED * v0 t)
  else if anyDown ks [KEY_LEFT; KEY_A; KEY_Q]
  then (- RUN_SPEED * v2 t, RUN_SPEED * v0 t)
  else if anyDown ks [KEY_DOWN; KEY_S]
  then (- RUN_SPEED * v0 t, - RUN_SPEED * v2 t)
  else if anyDown ks [KEY_UP; KEY_W; KEY_Z]
  then (RUN_SPEED * v0 t, RUN_SPEED * v2 t)
  else (0, 0).

(** How many of the four movement branches are taken. *)
Definition branchesTaken (ks : list Key) : Q :=
  let count (codes : list nat) : Q := if anyDown ks codes then 1 else 0 in
  count [KEY_UP; KEY_W; KEY_Z] + count [KEY_DOWN; KEY_S]
  + count [KEY_LEFT; KEY_A; KEY_Q] + count [KEY_RIGHT; KEY_D].

(** What the frame's bookkeeping does to a key that is held, as the spec
    gives it: the key stays down and its count grows by one. *)
Definition countsHeldFrames (update : list Key -> list Key) : Prop :=
  forall ks k,
    ks !! KEY_SPACE = Some k ->
    down k = true ->
    update ks !! KEY_SPACE = Some (mkKey true (downCount k + 1)).

(** Whether the frame run on [c] executes line 331, the jump impulse. *)
Definition jumpImpulse (deltaTime : Q) (c : Client) : bool :=
  match gameMap c, beforeClamp deltaTime c,
        updateKeys (keys c) !! KEY_SPACE with
  | Some m, Some p, Some space =>
      Qltb (p_y p) (getY m (p_x p) (p_z p) + PLAYER_HALF_HEIGHT)
      && (downCount space =? 1)%Z
  | _, _, _ => false
  end.

(** Frames run one after the other while the space key is held: between
    two frames other listeners may change anything but the entry of the
    space key.  The number counts the frames that gave a jump impulse. *)
Inductive heldFrames : Client -> nat -> Prop :=
| held_done c : heldFrames c 0
| held_frame c c1 c2 deltaTime n :
    keys c1 !! KEY_SPACE = keys c !! KEY_SPACE ->
    handleKeys deltaTime c1 = Some c2 ->
    heldFrames c2 n ->
    heldFrames c ((if jumpImpulse deltaTime c1 then 1 else 0) + n).

(** The entries drawn by a sequence of calls, in drawing order. *)
Definition drawn (calls : list GlCall) : list Quad :=
  flat_map (fun call => match call with Render qs => qs | _ => [] end) calls.

(** The direction the player looks in: the forward axis rotated by the
    pitch and then by the yaw. *)
Definition aim (p : Player) : Vec3 :=
  rotateY (rotateX forward origin (p_pitch p)) origin (p_yaw p).

(** The dynamic entries of a frame for the snapshot [g]. *)
Definition frameQuads (g : ServerGameState) (c : Client) : list Quad :=
  map EntityQuad (default [] (entities g))
  ++ map EntityQuad (localEntities c)
  ++ (if isStarted g then [BlueCircleQuad] else []).

(** No opaque entry is drawn after the translucent one. *)
Definition translucentLast (qs : list Quad) : Prop :=
  forall i j q,
    qs !! i = Some BlueCircleQuad -> qs !! j = Some q ->
    q <> BlueCircleQuad -> (j < i)%nat.

End Session.

(** Modelled from the spec: [updateKeys] is not among the sources.  It keeps
    the down transition count of each key for the current frame: the count
    is 1 in the frame in which the key is newly pressed, grows while the key
    stays held, and is 0 while the key is up. *)
Definition tick (k : Key) : Key :=
  if down k then mkKey true (downCount k + 1) else mkKey false 0.

(** Modelled from the spec: [normalizeRadians] is not among the sources.
    The canonical range of an angle is one turn around zero. *)
Definition canonical (a : Q) : Prop := - Math_PI <= a /\ a <= Math_PI.

(** ** The world map

    Modelled from the spec: the [GameMap] class is not among the sources.
    [create] is a function of the seed alone and normalizes the seed;
    [heightAt] returns the generator's value for the map's seed and may
    memoize it; [overviewImage] is computed once and cached for the map's
    lifetime.  The generator itself and the seed normalization are left
    open. *)
Module WorldMap.

#[export] Instance Q_eq_dec : EqDecision Q.
Proof. solve_decision. Defined.

Section Generator.
Variable normalizeSeed : Z -> Z.
Variable terrain : Z -> Q -> Q -> Q.
Variable Image : Type.
Variable paint : Z -> Image.

Record t := mk {
  mapSeed : Z;
  memo : list (Q * Q * Q);
  overview : option Image
}.

Definition create (s : Z) : t := mk (normalizeSeed s) [] None.

Fixpoint remembered (x z : Q) (entries : list (Q * Q * Q)) : option Q :=
  match entries with
  | [] => None
  | (x', z', h) :: rest =>
      if decide (x' = x /\ z' = z) then Some h else remembered x z rest
  end.

(** The height and the map as the query leaves it. *)
Definition heightAt (m : t) (x z : Q) : Q * t :=
  match remembered x z (memo m) with
  | Some h => (h, m)
  | None =>
      let h := terrain (mapSeed m) x z in
      (h, mk (mapSeed m) ((x, z, h) :: memo m) (overview m))
  end.

Definition overviewImage (m : t) : Image * t :=
  match overview m with
  | Some img => (img, m)
  | None =>
      let img := paint (mapSeed m) in
      (img, mk (mapSeed m) (memo m) (Some img))
  end.

End Generator.
End WorldMap.

(** ** A concrete environment

    Small rational stand-ins for what the browser and the other scripts
    provide, to run the model on. *)
Module Sample.

(** Polynomial stand-ins for [Math.cos] and [Math.sin], exact at 0. *)
Definition cos (a : Q) : Q := 1 - a * a / 2 + a * a * a * a / 24.
Definition sin (a : Q) : Q := a - a * a * a / 6.

(** gl-matrix's [vec3.rotateX] and [vec3.rotateY] over these. *)
Definition rotX (a b : Vec3) (rad : Q) : Vec3 :=
  let p0 := v0 a - v0 b in
  let p1 := v1 a - v1 b in
  let p2 := v2 a - v2 b in
  mkVec3 (p0 + v0 b)
         (p1 * cos rad - p2 * sin rad + v1 b)
         (p1 * sin rad + p2 * cos rad + v2 b).

Definition rotY (a b : Vec3) (rad : Q) : Vec3 :=
  let p0 := v0 a - v0 b in
  let p1 := v1 a - v1 b in
  let p2 := v2 a - v2 b in
  mkVec3 (p2 * sin rad + p0 * cos rad + v0 b)
         (p1 + v1 b)
         (p2 * cos rad - p0 * sin rad + v2 b).

(** An angle brought back into one turn around zero. *)
Definition wrap (a : Q) : Q :=
  let turn := 2 * Math_PI in
  a - turn * inject_Z (Qfloor ((a + Math_PI) / turn)).

(** A terrain that slopes with the seed. *)
Definition terrain (s : Z) (x z : Q) : Q :=
  inject_Z (s mod 16) + x / 8.

Definition Map : Type := WorldMap.t unit.

Definition newMap (s : Z) : Map :=
  WorldMap.create (fun s => s mod 1024)%Z unit s.

Definition height (m : Map) (x z : Q) : Q :=
  fst (WorldMap.heightAt terrain unit m x z).

#[export] Instance env : Env := {|
  GameMap := Map;
  newGameMap := newMap;
  getY := height;
  RUN_SPEED := 40;
  GRAVITY := 160;
  PLAYER_HALF_HEIGHT := 8;
  JUMP_POWER := 56;
  LOBBY_ID := 0;
  forward := mkVec3 0 0 1;
  origin := mkVec3 0 0 0;
  rotateX := rotX;
  rotateY := rotY;
  normalizeRadians := wrap;
  updateKeys := map tick;
  isStarted := started;
  isCurrentPlayerAlive := fun g => (0 <? aliveCount g)%Z;
  Math_cos := cos;
  Math_sin := sin;
  worldQuads := fun _ => [WorldQuad 0; WorldQuad 1]
|}.

(** The key table as the key script leaves it: 256 keys, all up. *)
Definition noKeys : list Key := replicate 256 (mkKey false 0).

Definition press (code : nat) (ks : list Key) : list Key :=
  <[code := mkKey true 0]> ks.

(** A freshly loaded page.  [player] is a top-level [const] of the client
    script (line 7), which makes no property of [window]: the bridge does
    not see it.  [shoot] is a function declaration, which does; the key
    table of the key script is taken to be visible too. *)
Definition fresh : Client := initial [] noKeys false true true.

(** The page as it would be with the player made a property of [window]. *)
Definition exposed : Client := initial [] noKeys true true true.

(** A snapshot of a running match. *)
Definition remote : GameEntity := mkEntity PLAYER 5 20 5 0 0 0.
Definition match1 : ServerGameState := mkSnapshot 7 42 true 2 (Some [remote]).

(** The page once [match1] has arrived and the game has been set up. *)
Definition playing : option Client :=
  c ← dispatch (Update 1%positive match1) fresh;
  dispatch InitGame c.

(** The page in the match, and with the W key held. *)
Definition inMatch : Client := default fresh playing.
Definition forwardHeld : Client := set_keys (press KEY_W noKeys) inMatch.

(** The player below the ground with the space key just pressed, and the
    two frames that follow while the key stays down. *)
Definition jumping : Client :=
  set_keys (press KEY_SPACE noKeys)
    (set_player (set_position 0 0 0 (player inMatch)) inMatch).
Definition jumped : Client := default jumping (handleKeys 1 jumping).
Definition landed : Client := default jumped (handleKeys 1 jumped).


End Sample.

(** * The rest of the page

    The sound script, the HUD geometry the exit button needs, the stored
    player name and the click listener, which ties them to the state of the
    client script. *)

(** ** Sound: [playGunfire] and the music *)

Module Audio.

(** What [playGunfire] hands to the Web Audio graph it builds: the gain
    envelope (set at [startTime], ramp to 0.001 until [rampEnd], set to 0 at
    [stopTime]) and the settings of the two filters. *)
Record Gunfire := mkGunfire {
  startTime : Q;
  startGain : Q;
  rampEnd : Q;
  stopTime : Q;
  lowpassFrequency : Q;
  bassBoostFrequency : Q;
  bassBoostGain : Q
}.

(** [opt_length || 1]: a missing or zero length counts as one second. *)
Definition lengthOr1 (opt_length : option Q) : Q :=
  match opt_length with
  | Some l => if Qeq_bool l 0 then 1 else l
  | None => 1
  end.

(** [playGunfire(distance, opt_length)] at the audio clock [now]; [None]
    when the function returns without playing. *)
Definition playGunfire (distance : Q) (opt_length : option Q) (now : Q)
  : option Gunfire :=
  if Qltb 500 distance then None
  else
    let length := lengthOr1 opt_length in
    let inverseDistance := 1.0 - distance / 500.0 in
    let volumePercent := inverseDistance * inverseDistance in
    let lowpassFrequency := 1000 - distance in
    let bassBoostFrequency := 5000 - 10 * distance in
    let bassBoostGain := Math_max 1 (10 - distance / 50) in
    Some (mkGunfire now (10 * volumePercent) (now + 0.7 * length)
            (now + length) lowpassFrequency bassBoostFrequency
            bassBoostGain).

(** What a settled [audioContext.resume()] promise goes on to do. *)
Inductive Continuation :=
| ThenPlayMusic
| ThenLog.

(** The variables of the sound script and what the audio context holds:
    whether it is suspended, the music sources that have been started and
    not stopped, the number of source nodes made so far (the next node's
    name), the [resume()] promises that have not settled yet, the gunfire
    effects started, and the audio clock. *)
Record State := mkState {
  suspended : bool;
  musicBuffer : option nat;
  currentMusicSource : option nat;
  playing : list nat;
  created : nat;
  resuming : list Continuation;
  gunfire : list Gunfire;
  currentTime : Q
}.

Definition set_music (current : option nat) (sounding : list nat)
  (made : nat) (a : State) : State :=
  mkState (suspended a) (musicBuffer a) current sounding made (resuming a)
    (gunfire a) (currentTime a).

Definition set_resuming (suspend : bool) (pending : list Continuation)
  (a : State) : State :=
  mkState suspend (musicBuffer a) (currentMusicSource a) (playing a)
    (created a) pending (gunfire a) (currentTime a).

Definition set_musicBuffer (buffer : option nat) (a : State) : State :=
  mkState (suspended a) buffer (currentMusicSource a) (playing a)
    (created a) (resuming a) (gunfire a) (currentTime a).

Definition add_gunfire (g : option Gunfire) (a : State) : State :=
  match g with
  | Some g =>
      mkState (suspended a) (musicBuffer a) (currentMusicSource a)
        (playing a) (created a) (resuming a) (gunfire a ++ [g])
        (currentTime a)
  | None => a
  end.

(** The sound script as it is once loaded, in a context that is suspended
    or not. *)
Definition initial (suspend : bool) : State :=
  mkState suspend None None [] 0 [] [] 0.

Definition stopMusic (a : State) : State :=
  match currentMusicSource a with
  | Some node =>
      set_music None (filter (fun n => negb (n =? node)%nat) (playing a))
        (created a) a
  | None => a
  end.

Definition playMusicInternal (a : State) : State :=
  let a := stopMusic a in
  let node := created a in
  set_music (Some node) (playing a ++ [node]) (S node) a.

Definition playMusic (a : State) : State :=
  match musicBuffer a with
  | None => a
  | Some _ =>
      if suspended a
      then set_resuming (suspended a) (resuming a ++ [ThenPlayMusic]) a
      else playMusicInternal a
  end.

Definition setMusicEnabled (enabled : bool) (a : State) : State :=
  if enabled then playMusic a else stopMusic a.

Definition playPickupSound (a : State) : State :=
  add_gunfire (playGunfire 0 (Some 0.2) (currentTime a)) a.

(** What happens to the sound script from outside: the music file arrives
    decoded ([preloadMusic] stores it) or fails to load, the oldest pending
    [resume()] promise settles, the page switches the music, or a gun is
    heard at some distance. *)
Inductive Event :=
| MusicLoaded (buffer : nat)
| MusicFailed
| ResumeSettled (resolved : bool)
| SetMusicEnabled (enabled : bool)
| PlayGunfire (distance : Q) (opt_length : option Q).

Definition step (e : Event) (a : State) : State :=
  match e with
  | MusicLoaded buffer => set_musicBuffer (Some buffer) a
  | MusicFailed => a
  | ResumeSettled resolved =>
      match resuming a with
      | [] => a
      | continuation :: rest =>
          if resolved then
            let a := set_resuming false rest a in
            match continuation with
            | ThenPlayMusic => playMusicInternal a
            | ThenLog => a
            end
          else set_resuming (suspended a) rest a
      end
  | SetMusicEnabled enabled => setMusicEnabled enabled a
  | PlayGunfire distance opt_length =>
      add_gunfire (playGunfire distance opt_length (currentTime a)) a
  end.

Definition run (events : list Event) (a : State) : State :=
  fold_left (fun a e => step e a) events a.

(** At most the current music source sounds. *)
Definition oneSource (a : State) : Prop :=
  playing a = match currentMusicSource a with
              | Some node => [node]
              | None => []
              end
  /\ forall node, currentMusicSource a = Some node -> (node < created a)%nat.

End Audio.

(** ** The HUD geometry *)

Module Hud.

(** [x | 0]: the number truncated towards zero and wrapped to 32 bits. *)
Definition toInt32 (x : Q) : Z :=
  let n := if (0 <=? Qnum x)%Z then Qfloor x else Qceiling x in
  ((n + 2147483648) mod 4294967296 - 2147483648)%Z.

Record State := mkState {
  width : Z;
  height : Z;
  centerX : Z;
  centerY : Z;
  mouseX : Q;
  mouseY : Q
}.

(** Lines 20 to 25. *)
Definition initial : State := mkState 2 2 1 1 0 0.

(** [handleResizeEvent()], for the inner size the window has. *)
Definition handleResizeEvent (innerWidth innerHeight : Z) (h : State)
  : State :=
  mkState innerWidth innerHeight
    (toInt32 (inject_Z innerWidth / 2)) (toInt32 (inject_Z innerHeight / 2))
    (mouseX h) (mouseY h).

(** The [mousemove] listener of the overlay canvas. *)
Definition onMouseMove (pageX pageY : Q) (h : State) : State :=
  mkState (width h) (height h) (centerX h) (centerY h) pageX pageY.

Definition isMouseOverExitButton (h : State) : bool :=
  let buttonWidth := 120 in
  let buttonHeight := 40 in
  let buttonX := inject_Z (centerX h) - buttonWidth / 2 in
  let buttonY := inject_Z (centerY h) + 50 in
  Qltb buttonX (mouseX h) && Qltb (mouseX h) (buttonX + buttonWidth)
  && Qltb buttonY (mouseY h) && Qltb (mouseY h) (buttonY + buttonHeight).

End Hud.

(** ** The stored player name *)

Module Storage.

#[export] Instance ascii_eq_dec : EqDecision ascii := ascii_dec.

#[export] Instance ascii_countable : Countable ascii :=
  inj_countable' nat_of_ascii ascii_of_nat ascii_nat_embedding.

(** [localStorage]: string keys to string values. *)
Definition t := gmap (list ascii) (list ascii).

(** The key ['n'] the name is stored under. *)
Definition nameKey : list ascii := ["n"%char].

Definition setPlayerName (name : list ascii) (s : t) : t :=
  <[nameKey := name]> s.

(** [getPlayerName()]; [generated] is what [generatePlayerName()] would
    return.  A missing item and an empty one both count as no name. *)
Definition getPlayerName (generated : list ascii) (s : t)
  : list ascii * t :=
  match s !! nameKey with
  | Some (ch :: name) => (ch :: name, s)
  | Some [] | None => (generated, setPlayerName generated s)
  end.

End Storage.

(** ** The page: the click listener and the load *)

Section PageScript.
Context `{Env}.

(** The client script's variables together with the sound script, the HUD
    geometry, local storage, and the requests made to the browser: how often
    the pointer lock and a reload of the page have been asked for. *)
Record Page := mkPage {
  client : Client;
  audio : Audio.State;
  hud : Hud.State;
  storage : Storage.t;
  lockRequests : nat;
  reloads : nat
}.

Definition set_client (c : Client) (pg : Page) : Page :=
  mkPage c (audio pg) (hud pg) (storage pg) (lockRequests pg) (reloads pg).

Definition set_audio (a : Audio.State) (pg : Page) : Page :=
  mkPage (client pg) a (hud pg) (storage pg) (lockRequests pg) (reloads pg).

Definition set_storage (s : Storage.t) (pg : Page) : Page :=
  mkPage (client pg) (audio pg) (hud pg) s (lockRequests pg) (reloads pg).

Definition requestPointerLock (pg : Page) : Page :=
  mkPage (client pg) (audio pg) (hud pg) (storage pg) (S (lockRequests pg))
    (reloads pg).

Definition reload (pg : Page) : Page :=
  mkPage (client pg) (audio pg) (hud pg) (storage pg) (lockRequests pg)
    (S (reloads pg)).

Definition set_name (name : list ascii) (p : Player) : Player :=
  mkPlayer (p_x p) (p_y p) (p_z p) (p_dx p) (p_dy p) (p_dz p) name
    (p_pitch p) (p_yaw p) (p_actions p).

(** The page as the scripts leave it when loaded (lines 7 to 44): the name
    comes from [getPlayerName()] and the first [handleResizeEvent()] has
    run. *)
Definition load (generated : list ascii) (ks : list Key) (wp wk ws : bool)
  (suspend : bool) (innerWidth innerHeight : Z) (s : Storage.t) : Page :=
  let named := Storage.getPlayerName generated s in
  mkPage (initial (fst named) ks wp wk ws) (Audio.initial suspend)
    (Hud.handleResizeEvent innerWidth innerHeight Hud.initial)
    (snd named) 0 0.

(** Whether the guard of [shoot()] returns early. *)
Definition held_fire (c : Client) : option bool :=
  match gameState c with
  | None => Some false
  | Some l => g ← heap c !! l; Some (negb (isCurrentPlayerAlive g))
  end.

(** [shoot()] with its sound: [playGunfire(0)] comes between the action and
    the recoil. *)
Definition pageShoot (r1 r2 : Q) (pg : Page) : option Page :=
  held ← held_fire (client pg);
  if held : bool then Some pg
  else
    let a := audio pg in
    let a := Audio.add_gunfire (Audio.playGunfire 0 None (Audio.currentTime a)) a in
    Some (set_audio a (set_client (fire r1 r2 (client pg)) pg)).

(** The lobby branch of the click listener (lines 59 to 71). *)
Definition clickLobby (overJoin overName : bool)
  (answer : option (list ascii)) (pg : Page) : Page :=
  let pg :=
    if overJoin then
      set_audio (Audio.playPickupSound (audio pg))
        (set_client (createClientEvent JOIN (client pg)) pg)
    else pg in
  if overName then
    let pg := set_audio (Audio.setMusicEnabled false (audio pg)) pg in
    let pg :=
      match answer with
      | Some (ch :: rest) =>
          let newName := ch :: rest in
          let c := client pg in
          set_client (set_player (set_name newName (player c)) c)
            (set_storage (Storage.setPlayerName newName (storage pg)) pg)
      | Some [] | None => pg
      end in
    set_audio (Audio.setMusicEnabled true (audio pg)) pg
  else pg.

(** The click listener of the overlay canvas.  [overJoin] and [overName]
    are what [isMouseOverButton] answers for the two lobby buttons, [answer]
    what the name prompt returns, [getAliveCount] the accessor of the
    snapshot. *)
Definition onClick (getAliveCount : ServerGameState -> Z) (button : Z)
  (overJoin overName : bool) (answer : option (list ascii)) (r1 r2 : Q)
  (pg : Page) : option Page :=
  if negb (button =? 0)%Z then Some pg
  else
    let pg :=
      if Audio.suspended (audio pg) then
        set_audio
          (Audio.set_resuming true
             (Audio.resuming (audio pg) ++ [Audio.ThenLog]) (audio pg)) pg
      else pg in
    let c := client pg in
    match gameState c with
    | None => Some pg
    | Some l =>
        g ← heap c !! l;
        if (gameId g =? LOBBY_ID)%Z then
          Some (clickLobby overJoin overName answer pg)
        else if negb (isCurrentPlayerAlive g) || (getAliveCount g =? 1)%Z
        then
          if Hud.isMouseOverExitButton (hud pg) then Some (reload pg)
          else Some pg
        else if mapOpen c then Some pg
        else if negb (pointerLocked c) then Some (requestPointerLock pg)
        else if isStarted g && isCurrentPlayerAlive g then pageShoot r1 r2 pg
        else Some pg
    end.

End PageScript.

(** ** Relations between key tables *)

(** [ks'] is [ks] with at most the [down] flags of the keys [codes]
    changed. *)
Definition sameButDown (codes : list nat) (ks ks' : list Key) : Prop :=
  length ks' = length ks
  /\ forall code,
       downCount <$> ks' !! code = downCount <$> ks !! code
       /\ (code ∉ codes -> ks' !! code = ks !! code).

(** ** More scenes on the sample page *)

Module Scenes.
Import Sample.

(** A snapshot of the lobby, and the page once it has arrived. *)
Definition lobbySnapshot : ServerGameState := mkSnapshot 0 42 false 0 None.

Definition inLobby : Client :=
  default fresh (dispatch (Update 1%positive lobbySnapshot) fresh).

(** The page once [match1] has arrived, before [initGame] has run. *)
Definition arrived : Client :=
  default fresh (dispatch (Update 1%positive match1) fresh).

(** The page in the match with the pointer locked. *)
Definition locked : Client :=
  default inMatch (dispatch (LockChange true) inMatch).

(** The page in the match a tenth of a second later. *)
Definition fallen : Client :=
  default inMatch (handleKeys (1 # 10) inMatch).

(** A page whose bridge does not see the player. *)
Definition unbridged : Client := initial [] noKeys false true true.

(** The whole page around a state of the client script, in a window of
    800 by 600 with the sound running. *)
Definition page (c : Client) : Page :=
  mkPage c (Audio.initial false)
    (Hud.handleResizeEvent 800 600 Hud.initial) ∅ 0 0.

(** The page after a left click with the pointer locked. *)
Definition shotPage : Page :=
  default (page locked)
    (onClick aliveCount 0 false false None (1 # 2) (1 # 2) (page locked)).

(** The page after a left click on the join button of the lobby. *)
Definition joinedPage : Page :=
  default (page inLobby)
    (onClick aliveCount 0 true false None 0 0 (page inLobby)).

(** A gun heard at distance 100 with a length of zero, at time 5. *)
Definition sound : Audio.Gunfire :=
  default (Audio.mkGunfire 0 0 0 0 0 0 0)
    (Audio.playGunfire 100 (Some 0) 5).

(** The sound script with the music file loaded, in a suspended context. *)
Definition musicLoaded : Audio.State :=
  Audio.step (Audio.MusicLoaded 7) (Audio.initial true).

End Scenes.

(** * Properties *)

Section Properties.
Context `{Env}.

Ltac case_Qltb :=
  match goal with
  | |- context [Qltb ?x ?y] => destruct (Qltb x y) eqn:?
  end.

Ltac key_codes :=
  repeat constructor;
  unfold KEY_UP, KEY_DOWN, KEY_LEFT, KEY_RIGHT, KEY_W, KEY_A, KEY_S, KEY_D,
    KEY_Z, KEY_Q, KEY_M, KEY_ESCAPE, KEY_SPACE; lia.

Lemma Qltb_lt (x y : Q) : Qltb x y = true <-> x < y.
Proof. unfold Qltb, Qlt. apply Z.ltb_lt. Qed.

Lemma Qltb_ge (x y : Q) : Qltb x y = false <-> y <= x.
Proof. unfold Qltb, Qle. rewrite Z.ltb_ge. reflexivity. Qed.

Lemma ready_lookup (ks : list Key) (code : nat) :
  (256 <= length ks)%nat -> (code < 256)%nat -> is_Some (ks !! code).
Proof. intros Hlen Hcode. apply lookup_lt_is_Some. lia. Qed.

Lemma any_down_ready (ks : list Key) (codes : list nat) :
  (256 <= length ks)%nat ->
  Forall (fun code => (code < 256)%nat) codes ->
  any_down ks codes = Some (anyDown ks codes).
Proof.
  intros Hlen Hcodes.
  induction Hcodes as [|code rest Hcode _ IH]; [reflexivity|].
  destruct (ready_lookup ks code Hlen Hcode) as [k Hk].
  cbn [any_down anyDown existsb]. unfold isDown at 1. rewrite Hk. cbn.
  destruct (down k); [reflexivity | exact IH].
Qed.

(** With a full key table the movement branches raise no error, and their
    result is the four branches taken in order. *)
Lemma applyMovementKeys_ready (ks : list Key) (t : Vec3) (p : Player) :
  (256 <= length ks)%nat ->
  applyMovementKeys ks t p =
    Some (run (anyDown ks [KEY_RIGHT; KEY_D])
            (RUN_SPEED * v2 t) (- RUN_SPEED * v0 t)
         (run (anyDown ks [KEY_LEFT; KEY_A; KEY_Q])
            (- RUN_SPEED * v2 t) (RUN_SPEED * v0 t)
         (run (anyDown ks [KEY_DOWN; KEY_S])
            (- RUN_SPEED * v0 t) (- RUN_SPEED * v2 t)
         (run (anyDown ks [KEY_UP; KEY_W; KEY_Z])
            (RUN_SPEED * v0 t) (RUN_SPEED * v2 t)
         (set_velocity 0 (p_dy p) 0 p))))).
Proof.
  intros Hlen. unfold applyMovementKeys.
  rewrite !any_down_ready by (assumption || key_codes).
  reflexivity.
Qed.

Lemma mapToggled_ready (ks : list Key) (isOpen : bool) :
  (256 <= length ks)%nat -> is_Some (mapToggled ks isOpen).
Proof.
  intros Hlen. unfold mapToggled.
  destruct (ready_lookup ks KEY_M Hlen) as [m ->]; [key_codes|].
  destruct (ready_lookup ks KEY_ESCAPE Hlen) as [e ->]; [key_codes|].
  cbn. destruct (downCount m =? 1)%Z, isOpen; eauto.
Qed.

Lemma beforeClamp_ready (deltaTime : Q) (c : Client) :
  keysReady c ->
  exists p,
    applyMovementKeys (updateKeys (keys c))
      (rotateY forward origin (p_yaw (player c))) (player c) = Some p
    /\ beforeClamp deltaTime c = Some (integrate deltaTime p).
Proof.
  intros Hready. unfold beforeClamp.
  rewrite (applyMovementKeys_ready _ _ _ Hready).
  destruct (mapToggled_ready _ (mapOpen c) Hready) as [b Hb].
  eexists. split; [reflexivity|]. cbn. rewrite Hb. reflexivity.
Qed.

Lemma clampToGround_ready (m : GameMap) (ks : list Key) (p : Player)
  (space : Key) :
  ks !! KEY_SPACE = Some space ->
  clampToGround m ks p =
    Some (if Qltb (p_y p) (getY m (p_x p) (p_z p) + PLAYER_HALF_HEIGHT)
          then set_velocity (p_dx p)
                 (if (downCount space =? 1)%Z then JUMP_POWER else 0)
                 (p_dz p)
                 (set_position (p_x p)
                    (getY m (p_x p) (p_z p) + PLAYER_HALF_HEIGHT) (p_z p) p)
          else p).
Proof.
  intros Hspace. unfold clampToGround. cbn. rewrite Hspace. cbn.
  destruct (Qltb _ _); [|reflexivity].
  destruct (downCount space =? 1)%Z; reflexivity.
Qed.

(** A frame with a map and a full key table runs to its end. *)
Lemma handleKeys_ready (deltaTime : Q) (c : Client) (m : GameMap) :
  gameMap c = Some m ->
  keysReady c ->
  exists p0 toggle space p1,
    applyMovementKeys (updateKeys (keys c))
      (rotateY forward origin (p_yaw (player c))) (player c) = Some p0
    /\ beforeClamp deltaTime c = Some (integrate deltaTime p0)
    /\ updateKeys (keys c) !! KEY_SPACE = Some space
    /\ clampToGround m (updateKeys (keys c)) (integrate deltaTime p0)
       = Some p1
    /\ handleKeys deltaTime c =
         Some (set_player p1
                (set_mapOpen (toggleMap toggle (mapOpen c))
                  (set_tempVec (rotateY forward origin (p_yaw (player c)))
                    (set_keys (updateKeys (keys c)) c)))).
Proof.
  intros Hmap Hready.
  destruct (beforeClamp_ready deltaTime c Hready) as (p0 & Hp0 & Hbefore).
  destruct (mapToggled_ready _ (mapOpen c) Hready) as [toggle Htoggle].
  destruct (ready_lookup _ KEY_SPACE Hready) as [space Hspace]; [key_codes|].
  exists p0, toggle, space. eexists.
  split; [exact Hp0|]. split; [exact Hbefore|]. split; [exact Hspace|].
  split; [apply (clampToGround_ready _ _ _ _ Hspace)|].
  unfold handleKeys. rewrite Hmap, Hp0. cbn. rewrite Htoggle. cbn.
  rewrite (clampToGround_ready _ _ _ _ Hspace). reflexivity.
Qed.

(** A frame only writes the player, the key table, [tempVec] and the
    map-overlay flag. *)
Lemma handleKeys_keys (deltaTime : Q) (c c' : Client) :
  handleKeys deltaTime c = Some c' ->
  keys c' = match gameMap c with
            | Some _ => updateKeys (keys c)
            | None => keys c
            end.
Proof.
  unfold handleKeys. destruct (gameMap c); intros Hrun;
    simplify_option_eq; reflexivity.
Qed.

Lemma handleKeys_frame (deltaTime : Q) (c c' : Client) :
  handleKeys deltaTime c = Some c' ->
  gameState c' = gameState c /\ heap c' = heap c
  /\ staticBuffers c' = staticBuffers c
  /\ dynamicBuffers c' = dynamicBuffers c
  /\ localEntities c' = localEntities c /\ glCalls c' = glCalls c
  /\ zoomLevel c' = zoomLevel c /\ then_ c' = then_ c.
Proof.
  unfold handleKeys. destruct (gameMap c); intros Hrun;
    simplify_option_eq; repeat split; reflexivity.
Qed.

(** C7: in a frame with a map, the horizontal velocity is zeroed and then
    set from the held movement keys, scaled by the run speed along the
    forward axis rotated by the current yaw; when several directions are
    held, the last one in the order forward, backward, left, right decides
    both components. *)
Theorem horizontal_velocity_by_precedence
  (deltaTime : Q) (c : Client) (m : GameMap) :
  gameMap c = Some m ->
  keysReady c ->
  exists c',
    handleKeys deltaTime c = Some c'
    /\ (p_dx (player c'), p_dz (player c'))
       = byPrecedence (updateKeys (keys c))
           (rotateY forward origin (p_yaw (player c))).
Proof.
  intros Hmap Hready.
  destruct (handleKeys_ready deltaTime c m Hmap Hready)
    as (p0 & toggle & space & p1 & Hp0 & _ & Hspace & Hclamp & Hrun).
  eexists. split; [exact Hrun|].
  rewrite (clampToGround_ready _ _ _ _ Hspace) in Hclamp.
  rewrite (applyMovementKeys_ready _ _ _ Hready) in Hp0.
  apply Some_inj in Hp0. apply Some_inj in Hclamp. subst p1 p0.
  unfold byPrecedence, run.
  set (ks := updateKeys (keys c)).
  destruct (anyDown ks [KEY_RIGHT; KEY_D]),
    (anyDown ks [KEY_LEFT; KEY_A; KEY_Q]),
    (anyDown ks [KEY_DOWN; KEY_S]), (anyDown ks [KEY_UP; KEY_W; KEY_Z]);
    case_Qltb; reflexivity.
Qed.

(** C2, as the script has it: before the ground clamp the vertical velocity
    is the previous one less the gravity term and less 0.02 for each of the
    four movement branches taken in the frame. *)
Theorem vertical_velocity_before_clamp
  (deltaTime : Q) (c : Client) (m : GameMap) :
  gameMap c = Some m ->
  keysReady c ->
  exists p,
    beforeClamp deltaTime c = Some p
    /\ p_dy p == p_dy (player c)
                 - 0.02 * branchesTaken (updateKeys (keys c))
                 - GRAVITY * deltaTime.
Proof.
  intros _ Hready.
  destruct (beforeClamp_ready deltaTime c Hready) as (p0 & Hp0 & Hbefore).
  eexists. split; [exact Hbefore|].
  rewrite (applyMovementKeys_ready _ _ _ Hready) in Hp0.
  apply Some_inj in Hp0. subst p0.
  unfold branchesTaken, run.
  set (ks := updateKeys (keys c)).
  destruct (anyDown ks [KEY_RIGHT; KEY_D]),
    (anyDown ks [KEY_LEFT; KEY_A; KEY_Q]),
    (anyDown ks [KEY_DOWN; KEY_S]), (anyDown ks [KEY_UP; KEY_W; KEY_Z]);
    cbn [integrate set_velocity set_position p_dy]; ring.
Qed.


Lemma jumpImpulse_count (deltaTime : Q) (c : Client) (space : Key) :
  updateKeys (keys c) !! KEY_SPACE = Some space ->
  jumpImpulse deltaTime c = true ->
  downCount space = 1%Z /\ is_Some (gameMap c).
Proof.
  intros Hspace. unfold jumpImpulse. rewrite Hspace.
  destruct (gameMap c); [|discriminate].
  destruct (beforeClamp deltaTime c); [|discriminate].
  intros [_ Hone%Z.eqb_eq]%andb_prop. eauto.
Qed.

(** When the bookkeeping counts the frames a key is held, a held space key
    gives at most one impulse, and none once its count has reached one. *)
Lemma heldFrames_bound (c : Client) (n : nat) :
  countsHeldFrames updateKeys ->
  heldFrames c n ->
  forall k,
    keys c !! KEY_SPACE = Some k ->
    down k = true ->
    (n <= 1)%nat /\ ((1 <= downCount k)%Z -> n = 0%nat).
Proof.
  intros Hupdate Hrun.
  induction Hrun as [c | c c1 c2 deltaTime n Hsame Hframe Hrest IH];
    intros k Hk Hdown; [split; [lia | reflexivity]|].
  rewrite <- Hsame in Hk.
  pose proof (Hupdate _ _ Hk Hdown) as Hticked.
  pose proof (handleKeys_keys _ _ _ Hframe) as Hkeys.
  destruct (jumpImpulse deltaTime c1) eqn:Himpulse.
  - destruct (jumpImpulse_count _ _ _ Hticked Himpulse) as [Hone [m Hm]].
    rewrite Hm in Hkeys. cbn in Hone.
    destruct (IH (mkKey true (downCount k + 1))) as [_ Hnone];
      [rewrite Hkeys; exact Hticked | reflexivity |].
    cbn in Hnone. rewrite Hnone by lia. split; [lia | lia].
  - destruct (gameMap c1) as [m|].
    + destruct (IH (mkKey true (downCount k + 1))) as [Hle Hnone];
        [rewrite Hkeys; exact Hticked | reflexivity |].
      cbn in Hnone. split; [exact Hle | intros; apply Hnone; lia].
    + destruct (IH k) as [Hle Hnone];
        [rewrite Hkeys; exact Hk | exact Hdown |].
      split; [exact Hle | exact Hnone].
Qed.

(** C1: in a frame with a map, if after the position update the feet of
    the player (its height less half its size) are below the ground at the
    new place, the frame ends with the player standing on the ground and
    with no vertical velocity, or with the jump velocity when the count of
    the space key is one in this frame.  When the bookkeeping counts the
    frames a key is held, a space key that stays held over any number of
    frames gives the jump velocity in at most one of them. *)
Theorem ground_clamp_and_jump :
  (forall (deltaTime : Q) (c : Client) (m : GameMap),
     gameMap c = Some m ->
     keysReady c ->
     exists p space c',
       beforeClamp deltaTime c = Some p
       /\ updateKeys (keys c) !! KEY_SPACE = Some space
       /\ handleKeys deltaTime c = Some c'
       /\ p_x (player c') = p_x p /\ p_z (player c') = p_z p
       /\ (p_y p - PLAYER_HALF_HEIGHT < getY m (p_x p) (p_z p) ->
           p_y (player c')
           = getY m (p_x (player c')) (p_z (player c')) + PLAYER_HALF_HEIGHT
           /\ p_dy (player c')
              = if (downCount space =? 1)%Z then JUMP_POWER else 0)
       /\ (jumpImpulse deltaTime c = true ->
           p_dy (player c') = JUMP_POWER)
       /\ (~ p_y p - PLAYER_HALF_HEIGHT < getY m (p_x p) (p_z p) ->
           player c' = p))
  /\ (countsHeldFrames updateKeys ->
      forall (c : Client) (k : Key) (n : nat),
        keys c !! KEY_SPACE = Some k ->
        down k = true ->
        heldFrames c n ->
        (n <= 1)%nat).
Proof.
  split.
  - intros deltaTime c m Hmap Hready.
    destruct (handleKeys_ready deltaTime c m Hmap Hready)
      as (p0 & toggle & space & p1 & Hp0 & Hbefore & Hspace & Hclamp & Hrun).
    exists (integrate deltaTime p0), space. eexists.
    split; [exact Hbefore|]. split; [exact Hspace|]. split; [exact Hrun|].
    rewrite (clampToGround_ready _ _ _ _ Hspace) in Hclamp.
    apply Some_inj in Hclamp. subst p1.
    set (p := integrate deltaTime p0) in *.
    assert (Hfeet : p_y p - PLAYER_HALF_HEIGHT < getY m (p_x p) (p_z p)
                    <-> Qltb (p_y p)
                          (getY m (p_x p) (p_z p) + PLAYER_HALF_HEIGHT)
                        = true).
    { rewrite Qltb_lt. split; intros; lra. }
    unfold jumpImpulse. rewrite Hmap, Hbefore, Hspace. fold p.
    case_Qltb; cbn -[p].
    + split; [reflexivity|]. split; [reflexivity|].
      split; [intros _; split; reflexivity|].
      split; [intros ->; reflexivity|].
      intros Hnot. exfalso. apply Hnot, Hfeet. reflexivity.
    + split; [reflexivity|]. split; [reflexivity|].
      split; [intros Hbelow%Hfeet; discriminate|].
      split; [discriminate | reflexivity].
  - intros Hupdate c k n Hk Hdown Hrun.
    exact (proj1 (heldFrames_bound c n Hupdate Hrun k Hk Hdown)).
Qed.

(** C3: the listener of the update event stores the reference it is given
    and does nothing else: no snapshot object is written, the one stored
    before included, and the player, the key table, the buffers and every
    other variable of the script keep their values. *)
Theorem update_replaces_reference (l : loc) (c : Client) :
  gameState (onUpdate l c) = Some l
  /\ heap (onUpdate l c) = heap c
  /\ (forall old, gameState c = Some old ->
                  heap (onUpdate l c) !! old = heap c !! old)
  /\ player (onUpdate l c) = player c
  /\ keys (onUpdate l c) = keys c
  /\ staticBuffers (onUpdate l c) = staticBuffers c
  /\ dynamicBuffers (onUpdate l c) = dynamicBuffers c
  /\ localEntities (onUpdate l c) = localEntities c
  /\ set_gameState (gameState c) (onUpdate l c) = c.
Proof. destruct c. repeat split. Qed.

Lemma handleKeys_total (deltaTime : Q) (c : Client) :
  keysReady c -> is_Some (handleKeys deltaTime c).
Proof.
  intros Hready. destruct (gameMap c) as [m|] eqn:Hmap.
  - destruct (handleKeys_ready deltaTime c m Hmap Hready)
      as (? & ? & ? & ? & _ & _ & _ & _ & ->). eauto.
  - unfold handleKeys. rewrite Hmap. eauto.
Qed.

(** The map [initGame] builds is the one of the seed of the stored
    snapshot. *)
Lemma initGame_map_from_seed (c : Client) (l : loc) (g : ServerGameState) :
  gameState c = Some l ->
  heap c !! l = Some g ->
  exists c',
    initGame c = Some c' /\ gameMap c' = Some (newGameMap (seed g)).
Proof.
  intros Hstate Hheap. unfold initGame. rewrite Hstate. cbn.
  rewrite Hheap. cbn. eauto.
Qed.

Lemma translucentLast_app (opaque tail : list Quad) :
  Forall (fun q => q <> BlueCircleQuad) opaque ->
  tail = [] \/ tail = [BlueCircleQuad] ->
  translucentLast (opaque ++ tail).
Proof.
  intros Hopaque Htail i j q Hi Hj Hq.
  destruct (decide (i < length opaque)%nat) as [Hlt|Hge].
  - rewrite lookup_app_l in Hi by exact Hlt.
    rewrite Forall_lookup in Hopaque. destruct (Hopaque i _ Hi). reflexivity.
  - destruct (decide (j < length opaque)%nat) as [Hjlt|Hjge]; [lia|].
    rewrite lookup_app_r in Hj by lia.
    destruct Htail as [-> | ->]; [discriminate|].
    destruct (j - length opaque)%nat; [|discriminate].
    cbn in Hj. congruence.
Qed.

(** C4: in a frame with a snapshot that is not the lobby, the dynamic
    buffers are emptied and refilled with the entities of the snapshot in
    order, then the local entities, then the circle wall when the match has
    started; the static buffers are drawn before the dynamic ones, so that
    the circle wall is drawn after every opaque entry. *)
Theorem dynamic_buffers_rebuilt_in_order
  (now : Q) (c : Client) (l : loc) (g : ServerGameState)
  (sta dyn0 : list Quad) :
  gameState c = Some l ->
  heap c !! l = Some g ->
  gameId g <> LOBBY_ID ->
  staticBuffers c = Some sta ->
  dynamicBuffers c = Some dyn0 ->
  keysReady c ->
  Forall (fun q => q <> BlueCircleQuad) sta ->
  exists c',
    render now c = Some c'
    /\ dynamicBuffers c' = Some (frameQuads g c)
    /\ staticBuffers c' = Some sta
    /\ glCalls c' =
         glCalls c ++ [UpdateBuffers (frameQuads g c); ResetGl; SetupCamera;
                       Render sta; Render (frameQuads g c); DrawHud]
    /\ drawn [UpdateBuffers (frameQuads g c); ResetGl; SetupCamera;
              Render sta; Render (frameQuads g c); DrawHud]
       = sta ++ frameQuads g c
    /\ translucentLast (sta ++ frameQuads g c).
Proof.
  intros Hstate Hheap Hgame Hsta Hdyn Hready Hopaque.
  set (c0 := set_then (now * 0.001) c).
  destruct (handleKeys_total (now * 0.001 - then_ c) c0 Hready)
    as [c1 Hkeys].
  destruct (handleKeys_frame _ _ _ Hkeys)
    as (Hgs & Hhp & Hst & Hdy & Hloc & Hgl & _).
  cbn in Hgs, Hhp, Hst, Hdy, Hloc, Hgl.
  assert (Hscene : renderScene g c1
    = Some (gl (Render (frameQuads g c)) (gl (Render sta)
         (gl SetupCamera (gl ResetGl (gl (UpdateBuffers (frameQuads g c))
            (set_dynamicBuffers (Some (frameQuads g c)) c1))))))).
  { unfold renderScene. rewrite Hdy, Hdyn. cbn. rewrite Hst, Hsta. cbn.
    unfold frameQuads, resetBuffers, renderEntities, addBlueCircleQuads.
    rewrite Hloc.
    destruct (entities g), (isStarted g); cbn;
      rewrite <- ?app_assoc, ?app_nil_r; reflexivity. }
  eexists. split.
  - unfold render. fold c0. rewrite Hkeys. cbn. rewrite Hgs, Hstate.
    rewrite Hhp, Hheap. cbn.
    destruct (Z.eqb_spec (gameId g) LOBBY_ID) as [Heq|_]; [contradiction|].
    cbn. rewrite Hscene. reflexivity.
  - cbn. rewrite Hst, Hgl, <- !app_assoc. cbn.
    split; [reflexivity|]. split; [exact Hsta|]. split; [reflexivity|].
    split; [rewrite app_nil_r; reflexivity|].
    unfold frameQuads. rewrite !app_assoc. apply translucentLast_app.
    + rewrite <- app_assoc. apply Forall_app. split; [exact Hopaque|].
      apply Forall_app. split; apply Forall_forall;
        intros q (e & -> & _)%list_elem_of_fmap; discriminate.
    + destruct (isStarted g); [right | left]; reflexivity.
Qed.

(** C10: with no snapshot stored, the [f] key fires: a [SHOOT] entity with
    the position and the aim of the player is appended to the pending
    actions and the recoil is applied to pitch and yaw.  In any state,
    [shoot] does nothing only when a snapshot is stored and does not show
    the player alive. *)
Theorem fire_without_snapshot (r1 r2 : Q) (c : Client) :
  gameState c = None ->
  onKeyDown "f" r1 r2 c = Some (fire r1 r2 c)
  /\ shoot r1 r2 c = Some (fire r1 r2 c)
  /\ p_actions (player (fire r1 r2 c))
     = p_actions (player c)
       ++ [mkEntity SHOOT (p_x (player c)) (p_y (player c)) (p_z (player c))
             (v0 (aim (player c))) (v1 (aim (player c)))
             (v2 (aim (player c)))]
  /\ p_pitch (player (fire r1 r2 c)) = p_pitch (player c) - 0.02 * r1
  /\ p_yaw (player (fire r1 r2 c)) = p_yaw (player c) + (0.02 * r2 - 0.01)
  /\ (forall c1 c1',
        shoot r1 r2 c1 = Some c1' ->
        c1' = fire r1 r2 c1
        \/ (c1' = c1
            /\ exists l g, gameState c1 = Some l /\ heap c1 !! l = Some g
                           /\ isCurrentPlayerAlive g = false)).
Proof.
  intros Hnone. unfold onKeyDown, shoot. rewrite Hnone. cbn.
  repeat (split; [reflexivity|]).
  intros c1 c1'. destruct (gameState c1) as [l|]; [|left; congruence].
  destruct (heap c1 !! l) as [g|] eqn:Hg; cbn; [|discriminate].
  destruct (isCurrentPlayerAlive g) eqn:Halive; cbn; intros [= <-].
  - left. reflexivity.
  - right. split; [reflexivity|]. exists l, g. auto.
Qed.

(** C6, as the scripts behave on the page they load: the bridge does not
    see the player, so a joystick message returns at the guard of
    [handleJoystickMovement] and asserts no movement intent at all: every
    key is as it was before the message, whatever the angle and the force.
    The message for the released joystick sets the force to zero and does
    not touch the key table either. *)
Theorem joystick_asserts_no_intent
  (angle force r1 r2 : Q) (c : Client) :
  windowPlayer c = false ->
  exists c1 c2,
    onMessage (JOYSTICK_MOVE angle force) r1 r2 c = Some c1
    /\ onMessage JOYSTICK_END r1 r2 c1 = Some c2
    /\ joystickForce c1 = force
    /\ joystickActive c1 = true
    /\ keys c1 = keys c
    /\ (forall code, isDown (keys c1) code = isDown (keys c) code)
    /\ joystickForce c2 = 0
    /\ joystickActive c2 = false
    /\ keys c2 = keys c.
Proof.
  intros Hplayer. eexists. eexists. split.
  - cbn. unfold handleJoystickMovement. cbn. rewrite Hplayer. reflexivity.
  - cbn. repeat split.
Qed.

Lemma maxPitch_range :
  0 < Math_PI / 2 - 0.1 /\ Math_PI / 2 - 0.1 <= Math_PI.
Proof. split; [reflexivity | discriminate]. Qed.

(** A volley on a page without a snapshot: every press of the key fires,
    none of the shots is lost, and the recoils add up. *)
Lemma volley_recoil (r1 r2 : Q) (n : nat) (c : Client) :
  gameState c = None ->
  gameState (volley r1 r2 n c) = None
  /\ p_pitch (player (volley r1 r2 n c))
     == p_pitch (player c) - inject_Z (Z.of_nat n) * (0.02 * r1)
  /\ p_yaw (player (volley r1 r2 n c))
     == p_yaw (player c) + inject_Z (Z.of_nat n) * (0.02 * r2 - 0.01)
  /\ forall name ks wp wk ws,
       reachable name ks wp wk ws c ->
       reachable name ks wp wk ws (volley r1 r2 n c).
Proof.
  intros Hnone. induction n as [|n (Hstate & Hpitch & Hyaw & Hreach)].
  - cbn. split; [exact Hnone|]. split; [ring|]. split; [ring|]. auto.
  - assert (Hstep : dispatch (KeyDown "f" r1 r2) (volley r1 r2 n c)
                    = Some (fire r1 r2 (volley r1 r2 n c))).
    { cbn. unfold onKeyDown, shoot. rewrite Hstate. reflexivity. }
    assert (Hnext : volley r1 r2 (S n) c = fire r1 r2 (volley r1 r2 n c)).
    { change (volley r1 r2 (S n) c)
        with (default (volley r1 r2 n c)
                (dispatch (KeyDown "f" r1 r2) (volley r1 r2 n c))).
      rewrite Hstep. reflexivity. }
    rewrite Hnext, Nat2Z.inj_succ, <- Z.add_1_r, inject_Z_plus.
    split; [exact Hstate|].
    split; [cbn; rewrite Hpitch; ring|].
    split; [cbn; rewrite Hyaw; ring|].
    intros name ks wp wk ws Hc.
    exact (reach_step _ _ _ _ _ _ _ _ (Hreach _ _ _ _ _ Hc) Hstep).
Qed.

(** C8, as the scripts have it: after a captured pointer movement pitch
    and yaw are both results of [normalizeRadians], hence in the canonical
    range; a camera message of the bridge leaves the player as it is where
    the bridge does not see the player, as on the page the scripts load,
    and where it does see it the pitch afterwards lies within pi/2 - 0.1
    of zero, hence in the canonical range, while the yaw has the movement
    times 0.002 added and is not wrapped; the recoil of a shot lowers the
    pitch by less than 0.02 and moves the yaw by at most 0.01, without
    wrapping either. *)
Theorem orientation_after_update :
  (forall (c : Client) (movementX movementY : Q),
     (forall a, canonical (normalizeRadians a)) ->
     canonical (p_yaw (player (handleMouseMoveEvent movementX movementY c)))
     /\ canonical
          (p_pitch (player (handleMouseMoveEvent movementX movementY c))))
  /\ (forall (c : Client) (deltaX deltaY : Q),
        windowPlayer c = false ->
        player (handleCameraMove deltaX deltaY c) = player c)
  /\ (forall (c : Client) (deltaX deltaY : Q),
        windowPlayer c = true ->
        - (Math_PI / 2 - 0.1)
          <= p_pitch (player (handleCameraMove deltaX deltaY c))
        /\ p_pitch (player (handleCameraMove deltaX deltaY c))
           <= Math_PI / 2 - 0.1
        /\ canonical (p_pitch (player (handleCameraMove deltaX deltaY c)))
        /\ p_yaw (player (handleCameraMove deltaX deltaY c))
           = p_yaw (player c) + 0.002 * deltaX)
  /\ (forall (c : Client) (r1 r2 : Q),
        0 <= r1 < 1 ->
        0 <= r2 < 1 ->
        p_pitch (player c) - 0.02 < p_pitch (player (fire r1 r2 c))
        /\ p_pitch (player (fire r1 r2 c)) <= p_pitch (player c)
        /\ p_yaw (player c) - 0.01 <= p_yaw (player (fire r1 r2 c))
        /\ p_yaw (player (fire r1 r2 c)) < p_yaw (player c) + 0.01).
Proof.
  split; [|split; [|split]].
  - intros c mx my Hrange. cbn. split; apply Hrange.
  - intros c dx dy Hplayer. unfold handleCameraMove. rewrite Hplayer.
    reflexivity.
  - intros c dx dy Hplayer. unfold handleCameraMove. rewrite Hplayer. cbn.
    destruct maxPitch_range as [Hpos Hle].
    set (M := Math_PI / 2 - 0.1) in *.
    set (a := p_pitch (player c) + 0.002 * dy).
    assert (Hclamp : - M <= Math_max (- M) (Math_min M a)
                     /\ Math_max (- M) (Math_min M a) <= M).
    { unfold Math_max, Math_min.
      destruct (Qltb a M) eqn:E1; destruct (Qltb (- M) _) eqn:E2;
        rewrite ?Qltb_lt, ?Qltb_ge in E1, E2; split; lra. }
    destruct Hclamp as [Hlo Hhi]. unfold canonical.
    clearbody M. repeat split; first [reflexivity | lra].
  - intros c r1 r2 [Hr1 Hr1'] [Hr2 Hr2']. cbn. repeat split; lra.
Qed.






End Properties.
(** * More of the client script *)

Section Predictor.
Context `{Env}.

Ltac split_Qltb :=
  match goal with
  | |- context [Qltb ?x ?y] => destruct (Qltb x y) eqn:?
  end.

(** The four movement branches change the velocity and nothing else. *)
Lemma applyMovementKeys_rest (ks : list Key) (t : Vec3) (p p' : Player) :
  applyMovementKeys ks t p = Some p' ->
  p_x p' = p_x p /\ p_y p' = p_y p /\ p_z p' = p_z p
  /\ p_name p' = p_name p /\ p_pitch p' = p_pitch p /\ p_yaw p' = p_yaw p
  /\ p_actions p' = p_actions p.
Proof.
  unfold applyMovementKeys, run. intros Hrun.
  destruct (any_down ks [KEY_UP; KEY_W; KEY_Z]) as [[]|];
    destruct (any_down ks [KEY_DOWN; KEY_S]) as [[]|];
    destruct (any_down ks [KEY_LEFT; KEY_A; KEY_Q]) as [[]|];
    destruct (any_down ks [KEY_RIGHT; KEY_D]) as [[]|];
    cbn in Hrun; try discriminate; injection Hrun as <-; repeat split.
Qed.

Lemma clampToGround_rest (m : GameMap) (ks : list Key) (p p' : Player) :
  clampToGround m ks p = Some p' ->
  p_x p' = p_x p /\ p_z p' = p_z p /\ p_dx p' = p_dx p /\ p_dz p' = p_dz p
  /\ p_name p' = p_name p /\ p_pitch p' = p_pitch p /\ p_yaw p' = p_yaw p
  /\ p_actions p' = p_actions p.
Proof.
  unfold clampToGround. cbn. split_Qltb; [|intros [= <-]; repeat split].
  destruct (ks !! KEY_SPACE) as [space|]; cbn; [|discriminate].
  destruct (downCount space =? 1)%Z; intros [= <-]; repeat split.
Qed.

(** What a frame with a map does, stage by stage. *)
Lemma handleKeys_stages (deltaTime : Q) (c c' : Client) (m : GameMap) :
  gameMap c = Some m ->
  handleKeys deltaTime c = Some c' ->
  exists p0 toggle,
    applyMovementKeys (updateKeys (keys c))
      (rotateY forward origin (p_yaw (player c))) (player c) = Some p0
    /\ mapToggled (updateKeys (keys c)) (mapOpen c) = Some toggle
    /\ clampToGround m (updateKeys (keys c)) (integrate deltaTime p0)
       = Some (player c')
    /\ mapOpen c' = toggleMap toggle (mapOpen c)
    /\ keys c' = updateKeys (keys c)
    /\ gameMap c' = gameMap c.
Proof.
  intros Hmap. unfold handleKeys. rewrite Hmap.
  destruct (applyMovementKeys _ _ _) as [p0|] eqn:Hp0; cbn; [|discriminate].
  destruct (mapToggled _ _) as [toggle|] eqn:Htoggle; cbn; [|discriminate].
  destruct (clampToGround _ _ _) as [p1|] eqn:Hclamp; cbn; [|discriminate].
  intros [= <-]. exists p0, toggle. cbn.
  split; [reflexivity|]. split; [reflexivity|]. split; [exact Hclamp|].
  split; [reflexivity|]. split; [reflexivity | exact Hmap].
Qed.

(** X1: a frame with a map never ends with the player below the ground:
    the height of the player is at least the ground height at its place
    plus half its size. *)
Theorem frame_ends_on_or_above_ground
  (deltaTime : Q) (c : Client) (m : GameMap) :
  gameMap c = Some m ->
  keysReady c ->
  exists c',
    handleKeys deltaTime c = Some c'
    /\ getY m (p_x (player c')) (p_z (player c')) + PLAYER_HALF_HEIGHT
       <= p_y (player c').
Proof.
  intros Hmap Hready.
  destruct (handleKeys_ready deltaTime c m Hmap Hready)
    as (p0 & toggle & space & p1 & _ & _ & Hspace & Hclamp & Hrun).
  eexists. split; [exact Hrun|]. cbn.
  rewrite (clampToGround_ready _ _ _ _ Hspace) in Hclamp.
  apply Some_inj in Hclamp. subst p1.
  set (p := integrate deltaTime p0).
  split_Qltb.
  - cbn. apply Qle_refl.
  - apply Qltb_ge. assumption.
Qed.

(** X2: a frame leaves the name, the pitch, the yaw and the pending actions
    of the player alone, and moves it horizontally by the elapsed time
    times the velocity the frame ends with. *)
Theorem frame_moves_by_its_velocity
  (deltaTime : Q) (c : Client) (m : GameMap) :
  gameMap c = Some m ->
  keysReady c ->
  exists c',
    handleKeys deltaTime c = Some c'
    /\ p_x (player c') = p_x (player c) + deltaTime * p_dx (player c')
    /\ p_z (player c') = p_z (player c) + deltaTime * p_dz (player c')
    /\ p_name (player c') = p_name (player c)
    /\ p_pitch (player c') = p_pitch (player c)
    /\ p_yaw (player c') = p_yaw (player c)
    /\ p_actions (player c') = p_actions (player c).
Proof.
  intros Hmap Hready.
  destruct (handleKeys_total deltaTime c Hready) as [c' Hrun].
  exists c'. split; [exact Hrun|].
  destruct (handleKeys_stages _ _ _ _ Hmap Hrun)
    as (p0 & toggle & Hp0 & _ & Hclamp & _).
  apply applyMovementKeys_rest in Hp0
    as (Hx & _ & Hz & Hname & Hpitch & Hyaw & Hact).
  apply clampToGround_rest in Hclamp
    as (Hx' & Hz' & Hdx & Hdz & Hname' & Hpitch' & Hyaw' & Hact').
  cbn in Hx', Hz', Hdx, Hdz, Hname', Hpitch', Hyaw', Hact'.
  rewrite Hx', Hz', Hdx, Hdz, Hname', Hpitch', Hyaw', Hact'.
  rewrite Hx, Hz, Hname, Hpitch, Hyaw, Hact. repeat split.
Qed.

(** X3: in a frame of positive length under positive gravity that the
    player starts without upward velocity and ends strictly above the
    ground, the player loses height and its vertical velocity drops
    further, so the same holds for the next frame. *)
Theorem falling_frame_loses_height
  (deltaTime : Q) (c c' : Client) (m : GameMap) :
  gameMap c = Some m ->
  handleKeys deltaTime c = Some c' ->
  0 < deltaTime ->
  0 < GRAVITY ->
  p_dy (player c) <= 0 ->
  getY m (p_x (player c')) (p_z (player c')) + PLAYER_HALF_HEIGHT
    < p_y (player c') ->
  p_y (player c') < p_y (player c)
  /\ p_dy (player c') < p_dy (player c).
Proof.
  intros Hmap Hrun Hdt Hg Hdy Habove.
  destruct (handleKeys_stages _ _ _ _ Hmap Hrun)
    as (p0 & toggle & Hp0 & _ & Hclamp & _).
  pose proof (applyMovementKeys_rest _ _ _ _ Hp0) as (_ & Hy & _).
  assert (Hdy0 : p_dy p0 <= p_dy (player c)).
  { revert Hp0. unfold applyMovementKeys, run.
    destruct (any_down _ [KEY_UP; KEY_W; KEY_Z]) as [[]|];
      destruct (any_down _ [KEY_DOWN; KEY_S]) as [[]|];
      destruct (any_down _ [KEY_LEFT; KEY_A; KEY_Q]) as [[]|];
      destruct (any_down _ [KEY_RIGHT; KEY_D]) as [[]|];
      cbn; try discriminate; intros [= <-]; cbn; lra. }
  revert Hclamp Habove. unfold clampToGround. cbn.
  set (x := p_x p0 + deltaTime * p_dx p0).
  set (z := p_z p0 + deltaTime * p_dz p0).
  set (v := p_dy p0 - deltaTime * GRAVITY).
  assert (Hv : v < p_dy p0).
  { unfold v. assert (0 < deltaTime * GRAVITY)
      by (apply Qmult_lt_0_compat; assumption). lra. }
  assert (Hfall : deltaTime * v < 0).
  { assert (0 < deltaTime * - v)
      by (apply Qmult_lt_0_compat; [assumption | lra]).
    assert (deltaTime * - v == - (deltaTime * v)) by ring. lra. }
  split_Qltb.
  - destruct (_ !! KEY_SPACE) as [space|]; cbn; [|discriminate].
    destruct (downCount space =? 1)%Z; intros [= <-]; cbn; intros Habove;
      exfalso; revert Habove; apply Qlt_irrefl.
  - intros [= <-]. cbn. intros _. rewrite Hy. unfold v in *. split; lra.
Qed.

(** X4: the map overlay follows the M key and is only closed, never
    opened, by Escape: after a frame with a map the overlay flag is flipped
    when the count of M is one in this frame, cleared when the overlay was
    open and the count of Escape is one, and as before otherwise. *)
Theorem map_overlay_after_frame
  (deltaTime : Q) (c : Client) (m : GameMap) :
  gameMap c = Some m ->
  keysReady c ->
  exists c' keyM keyEscape,
    handleKeys deltaTime c = Some c'
    /\ updateKeys (keys c) !! KEY_M = Some keyM
    /\ updateKeys (keys c) !! KEY_ESCAPE = Some keyEscape
    /\ mapOpen c' =
         if (downCount keyM =? 1)%Z then negb (mapOpen c)
         else if (downCount keyEscape =? 1)%Z then false
         else mapOpen c.
Proof.
  intros Hmap Hready.
  destruct (handleKeys_total deltaTime c Hready) as [c' Hrun].
  destruct (handleKeys_stages _ _ _ _ Hmap Hrun)
    as (p0 & toggle & _ & Htoggle & _ & Hopen & _).
  destruct (ready_lookup _ KEY_M Hready) as [keyM HM];
    [unfold KEY_M; lia|].
  destruct (ready_lookup _ KEY_ESCAPE Hready) as [keyE HE];
    [unfold KEY_ESCAPE; lia|].
  exists c', keyM, keyE. split; [exact Hrun|].
  split; [exact HM|]. split; [exact HE|].
  rewrite Hopen. revert Htoggle. unfold mapToggled, toggleMap.
  rewrite HM. cbn. rewrite HE.
  destruct (downCount keyM =? 1)%Z, (mapOpen c) eqn:Hopened; cbn;
    intros [= <-]; try reflexivity.
  destruct (downCount keyE =? 1)%Z; reflexivity.
Qed.

End Predictor.

Section Frames.
Context `{Env}.

(** The drawing part of a frame for a snapshot of a match. *)
Lemma renderScene_ready (g : ServerGameState) (c : Client)
  (sta dyn0 : list Quad) :
  staticBuffers c = Some sta ->
  dynamicBuffers c = Some dyn0 ->
  exists c',
    renderScene g c = Some c'
    /\ dynamicBuffers c' = Some (frameQuads g c)
    /\ staticBuffers c' = Some sta
    /\ gameMap c' = gameMap c
    /\ player c' = player c
    /\ glCalls c' =
         glCalls c ++ [UpdateBuffers (frameQuads g c); ResetGl; SetupCamera;
                       Render sta; Render (frameQuads g c)].
Proof.
  intros Hsta Hdyn. unfold renderScene. rewrite Hdyn. cbn. rewrite Hsta. cbn.
  eexists. split; [reflexivity|]. cbn.
  unfold frameQuads, resetBuffers, renderEntities, addBlueCircleQuads.
  destruct (entities g), (isStarted g); cbn;
    rewrite <- ?app_assoc, ?app_nil_r; cbn; repeat split; exact Hsta.
Qed.

(** X5: a frame with no snapshot stored, or with a snapshot of the lobby,
    draws the HUD and nothing else, and leaves both buffer sets as they
    are. *)
Theorem frame_outside_match_draws_hud_only (now : Q) (c : Client) :
  keysReady c ->
  gameState c = None
  \/ (exists l g, gameState c = Some l /\ heap c !! l = Some g
                  /\ gameId g = LOBBY_ID) ->
  exists c',
    render now c = Some c'
    /\ glCalls c' = glCalls c ++ [DrawHud]
    /\ dynamicBuffers c' = dynamicBuffers c
    /\ staticBuffers c' = staticBuffers c.
Proof.
  intros Hready Hstate.
  set (c0 := set_then (now * 0.001) c).
  destruct (handleKeys_total (now * 0.001 - then_ c) c0 Hready)
    as [c1 Hkeys].
  destruct (handleKeys_frame _ _ _ Hkeys)
    as (Hgs & Hhp & Hst & Hdy & _ & Hgl & _).
  cbn in Hgs, Hhp, Hst, Hdy, Hgl.
  exists (gl DrawHud c1). split.
  - unfold render. fold c0. rewrite Hkeys. cbn. rewrite Hgs, Hhp.
    destruct Hstate as [-> | (l & g & -> & -> & Hlobby)]; cbn;
      [reflexivity|].
    rewrite Hlobby, Z.eqb_refl. reflexivity.
  - cbn. rewrite Hgl, Hdy, Hst. repeat split.
Qed.

(** X6: a frame with a snapshot of a match stored fails with a type error
    when the buffer sets have not been set up by [initGame]: the frame then
    ends before it has asked for the next one. *)
Theorem frame_before_setup_fails
  (now : Q) (c : Client) (l : loc) (g : ServerGameState) :
  gameState c = Some l ->
  heap c !! l = Some g ->
  gameId g <> LOBBY_ID ->
  dynamicBuffers c = None \/ staticBuffers c = None ->
  render now c = None.
Proof.
  intros Hstate Hheap Hgame Hnull. unfold render.
  destruct (handleKeys _ _) as [c1|] eqn:Hkeys; [|reflexivity].
  destruct (handleKeys_frame _ _ _ Hkeys)
    as (Hgs & Hhp & Hst & Hdy & _).
  cbn in Hgs, Hhp, Hst, Hdy. cbn. rewrite Hgs, Hstate, Hhp, Hheap. cbn.
  destruct (Z.eqb_spec (gameId g) LOBBY_ID) as [Heq|_]; [contradiction|].
  cbn. unfold renderScene. rewrite Hdy.
  destruct Hnull as [-> | Hnone]; [reflexivity|].
  destruct (dynamicBuffers c); [|reflexivity].
  cbn. rewrite Hst, Hnone. reflexivity.
Qed.

(** X7: when a snapshot of a match arrives, [initGame] runs and a frame
    follows, the frame succeeds: the map is the one of the snapshot's seed,
    the world geometry of that map is drawn first and the entities of the
    snapshot after it. *)
Theorem match_setup_then_frame
  (now : Q) (c : Client) (l : loc) (g : ServerGameState) :
  heap c !! l = None ->
  gameId g <> LOBBY_ID ->
  keysReady c ->
  exists c1 c2 c3,
    dispatch (Update l g) c = Some c1
    /\ dispatch InitGame c1 = Some c2
    /\ dispatch (Frame now) c2 = Some c3
    /\ gameMap c3 = Some (newGameMap (seed g))
    /\ dynamicBuffers c3 = Some (frameQuads g c)
    /\ glCalls c3 =
         glCalls c
         ++ [UpdateBuffers (frameQuads g c); ResetGl; SetupCamera;
             Render (worldQuads (newGameMap (seed g)));
             Render (frameQuads g c); DrawHud].
Proof.
  intros Hfresh Hgame Hready.
  set (c1 := onUpdate l (set_heap (<[l := g]> (heap c)) c)).
  set (m := newGameMap (seed g)).
  set (c2 := set_staticBuffers (Some (worldQuads m))
               (set_dynamicBuffers (Some []) (set_gameMap (Some m) c1))).
  assert (Hlook : heap c1 !! l = Some g) by apply lookup_insert_eq.
  exists c1, c2.
  assert (H1 : dispatch (Update l g) c = Some c1)
    by (cbn; rewrite Hfresh; reflexivity).
  assert (H2 : dispatch InitGame c1 = Some c2)
    by (cbn; unfold initGame; cbn; rewrite lookup_insert_eq; reflexivity).
  set (c0 := set_then (now * 0.001) c2).
  destruct (handleKeys_total (now * 0.001 - then_ c2) c0 Hready)
    as [c3 Hkeys].
  destruct (handleKeys_frame _ _ _ Hkeys)
    as (Hgs & Hhp & Hst & Hdy & Hloc & Hgl & _).
  destruct (handleKeys_stages _ c0 c3 m eq_refl Hkeys)
    as (_ & _ & _ & _ & _ & _ & _ & Hmap).
  cbn in Hgs, Hhp, Hst, Hdy, Hloc, Hgl, Hmap.
  destruct (renderScene_ready g c3 (worldQuads m) [] Hst Hdy)
    as (c4 & Hscene & Hdyn4 & _ & Hmap4 & _ & Hgl4).
  assert (Hquads : frameQuads g c3 = frameQuads g c)
    by (unfold frameQuads; rewrite Hloc; reflexivity).
  rewrite Hquads in *.
  exists (gl DrawHud c4).
  split; [exact H1|]. split; [exact H2|]. split.
  - change (dispatch (Frame now) c2) with (render now c2).
    unfold render. fold c0. rewrite Hkeys. cbn.
    rewrite Hgs, Hhp. cbn. rewrite lookup_insert_eq. cbn.
    destruct (Z.eqb_spec (gameId g) LOBBY_ID) as [Heq|_]; [contradiction|].
    cbn. rewrite Hscene. reflexivity.
  - cbn. rewrite Hmap4, Hmap, Hdyn4, Hgl4, Hgl, <- app_assoc.
    repeat split.
Qed.

End Frames.

Section Listeners.
Context `{Env}.

Lemma handleKeys_identity (deltaTime : Q) (c c' : Client) :
  handleKeys deltaTime c = Some c' ->
  p_name (player c') = p_name (player c)
  /\ p_pitch (player c') = p_pitch (player c)
  /\ p_yaw (player c') = p_yaw (player c)
  /\ p_actions (player c') = p_actions (player c).
Proof.
  intros Hrun. destruct (gameMap c) as [m|] eqn:Hmap.
  - destruct (handleKeys_stages _ _ _ _ Hmap Hrun)
      as (p0 & toggle & Hp0 & _ & Hclamp & _).
    apply applyMovementKeys_rest in Hp0 as (_ & _ & _ & Hn & Hp & Hy & Ha).
    apply clampToGround_rest in Hclamp
      as (_ & _ & _ & _ & Hn' & Hp' & Hy' & Ha').
    cbn in Hn', Hp', Hy', Ha'.
    rewrite Hn', Hp', Hy', Ha', Hn, Hp, Hy, Ha. repeat split.
  - unfold handleKeys in Hrun. rewrite Hmap in Hrun.
    injection Hrun as <-. repeat split.
Qed.

Lemma render_player (now : Q) (c c' : Client) :
  render now c = Some c' ->
  exists c1,
    handleKeys (now * 0.001 - then_ c) (set_then (now * 0.001) c) = Some c1
    /\ player c' = player c1.
Proof.
  unfold render. intros Hrun.
  destruct (handleKeys _ _) as [c1|] eqn:Hkeys; [|discriminate].
  exists c1. split; [reflexivity|]. cbn in Hrun.
  destruct (gameState c1) as [l|]; cbn in Hrun.
  - destruct (heap c1 !! l) as [g|]; cbn in Hrun; [|discriminate].
    destruct (negb _); cbn in Hrun.
    + unfold renderScene in Hrun.
      destruct (dynamicBuffers c1); cbn in Hrun; [|discriminate].
      destruct (staticBuffers c1); cbn in Hrun; [|discriminate].
      injection Hrun as <-. reflexivity.
    + injection Hrun as <-. reflexivity.
  - injection Hrun as <-. reflexivity.
Qed.

Lemma shoot_cases (r1 r2 : Q) (c c' : Client) :
  shoot r1 r2 c = Some c' -> c' = c \/ c' = fire r1 r2 c.
Proof.
  unfold shoot. destruct (gameState c) as [l|]; [|intros [= <-]; auto].
  destruct (heap c !! l) as [g|]; cbn; [|discriminate].
  destruct (negb _); intros [= <-]; auto.
Qed.

Lemma onMessage_player (msg : BridgeMessage) (r1 r2 : Q) (c c' : Client) :
  onMessage msg r1 r2 c = Some c' ->
  player c' = player c
  \/ c' = fire r1 r2 c
  \/ exists deltaX deltaY, player c' = player (handleCameraMove deltaX deltaY c).
Proof.
  destruct msg; cbn.
  - intros [= <-]. left. reflexivity.
  - unfold handleJoystickMovement, press_if, set_down. cbn.
    intros Hrun. left. repeat case_match; simplify_option_eq; reflexivity.
  - intros [= <-]. left. reflexivity.
  - intros [= <-]. right. right. eauto.
  - unfold handleShoot. destruct (windowShoot c);
      [|intros [= <-]; left; reflexivity].
    intros [-> | ->]%shoot_cases; [left | right; left]; reflexivity.
  - intros [= <-]. left. unfold handleJump. repeat case_match; reflexivity.
  - intros [= <-]. left. reflexivity.
Qed.

(** What the listeners other than the click listener do to the pending
    actions. *)
Lemma dispatch_actions (e : Event) (c c' : Client) :
  dispatch e c = Some c' ->
  p_actions (player c') = p_actions (player c)
  \/ p_actions (player c')
     = p_actions (player c)
       ++ [mkEntity SHOOT (p_x (player c)) (p_y (player c)) (p_z (player c))
             (v0 (aim (player c))) (v1 (aim (player c)))
             (v2 (aim (player c)))].
Proof.
  destruct e; cbn.
  - destruct (heap c !! l); intros [= <-]; left; reflexivity.
  - unfold onKeyDown. destruct (_ || _);
      [|intros [= <-]; left; reflexivity].
    intros [-> | ->]%shoot_cases; [left | right]; reflexivity.
  - unfold onMouseDown. destruct (_ =? _)%Z; intros [= <-]; left;
      reflexivity.
  - unfold onMouseUp. destruct (_ =? _)%Z; intros [= <-]; left; reflexivity.
  - intros [= <-]; left; reflexivity.
  - intros [= <-]; left; reflexivity.
  - destruct (pointerLocked c); intros [= <-]; left; reflexivity.
  - intros [Hsame | [-> | (dx & dy & Hcam)]]%onMessage_player.
    + left. rewrite Hsame. reflexivity.
    + right. reflexivity.
    + left. rewrite Hcam. unfold handleCameraMove.
      destruct (negb _); reflexivity.
  - unfold initGame. intros Hrun. simplify_option_eq. left. reflexivity.
  - intros (c1 & Hkeys & ->)%render_player. left.
    apply handleKeys_identity in Hkeys as (_ & _ & _ & ->). reflexivity.
  - intros [= <-]; left; reflexivity.
Qed.

(** X9: only a frame moves the player: the update, key, mouse and bridge
    listeners and [initGame] leave its position and its velocity as they
    are. *)
Theorem only_frames_move_player (e : Event) (c c' : Client) :
  dispatch e c = Some c' ->
  (forall now, e <> Frame now) ->
  p_x (player c') = p_x (player c) /\ p_y (player c') = p_y (player c)
  /\ p_z (player c') = p_z (player c) /\ p_dx (player c') = p_dx (player c)
  /\ p_dy (player c') = p_dy (player c) /\ p_dz (player c') = p_dz (player c).
Proof.
  intros Hstep Hlistener. revert Hstep. destruct e; cbn.
  - destruct (heap c !! l); intros [= <-]; repeat split.
  - unfold onKeyDown. destruct (_ || _);
      [|intros [= <-]; repeat split].
    intros [-> | ->]%shoot_cases; repeat split.
  - unfold onMouseDown. destruct (_ =? _)%Z; intros [= <-]; repeat split.
  - unfold onMouseUp. destruct (_ =? _)%Z; intros [= <-]; repeat split.
  - intros [= <-]; repeat split.
  - intros [= <-]; repeat split.
  - destruct (pointerLocked c); intros [= <-]; repeat split.
  - intros [-> | [-> | (dx & dy & ->)]]%onMessage_player;
      [repeat split.. |].
    unfold handleCameraMove. destruct (negb _); repeat split.
  - unfold initGame. intros Hstep. simplify_option_eq. repeat split.
  - destruct (Hlistener now). reflexivity.
  - intros [= <-]; repeat split.
Qed.

End Listeners.

Section Bridge.
Context `{Env}.

Lemma sameButDown_refl (codes : list nat) (ks : list Key) :
  sameButDown codes ks ks.
Proof. split; [reflexivity|]. intros code. split; reflexivity. Qed.

Lemma sameButDown_trans (codes : list nat) (ks1 ks2 ks3 : list Key) :
  sameButDown codes ks1 ks2 ->
  sameButDown codes ks2 ks3 ->
  sameButDown codes ks1 ks3.
Proof.
  intros [Hlen12 H12] [Hlen23 H23]. split; [congruence|].
  intros code. destruct (H12 code) as [Hc12 Hk12].
  destruct (H23 code) as [Hc23 Hk23]. split; [congruence|].
  intros Hout. rewrite Hk23, Hk12 by exact Hout. reflexivity.
Qed.

Lemma set_down_same (codes : list nat) (code : nat) (b : bool)
  (ks : list Key) :
  code ∈ codes ->
  (code < length ks)%nat ->
  exists ks',
    set_down code b ks = Some ks'
    /\ sameButDown codes ks ks'
    /\ forall code',
         isDown ks' code' = if decide (code' = code) then b
                            else isDown ks code'.
Proof.
  intros Hin Hlt. destruct (lookup_lt_is_Some_2 ks code Hlt) as [k Hk].
  unfold set_down. rewrite Hk. cbn. eexists. split; [reflexivity|].
  split; [split; [apply length_insert|]|].
  - intros code'. destruct (decide (code' = code)) as [->|Hne].
    + rewrite list_lookup_insert_eq by exact Hlt. rewrite Hk.
      split; [reflexivity|]. intros Hout. contradiction.
    + rewrite list_lookup_insert_ne by congruence. split; reflexivity.
  - intros code'. unfold isDown. case_decide as Hcode.
    + subst code'. rewrite list_lookup_insert_eq by exact Hlt. reflexivity.
    + rewrite list_lookup_insert_ne by congruence. reflexivity.
Qed.

Lemma press_if_same (codes : list nat) (cond : bool) (code : nat)
  (ks : list Key) :
  code ∈ codes ->
  (code < length ks)%nat ->
  exists ks',
    press_if cond code ks = Some ks'
    /\ sameButDown codes ks ks'
    /\ forall code',
         isDown ks' code' = if decide (code' = code)
                            then cond || isDown ks code'
                            else isDown ks code'.
Proof.
  intros Hin Hlt. unfold press_if. destruct cond.
  - destruct (set_down_same codes code true ks Hin Hlt)
      as (ks' & Hset & Hsame & Hdown).
    exists ks'. split; [exact Hset|]. split; [exact Hsame|].
    intros code'. rewrite Hdown. case_decide; reflexivity.
  - exists ks. split; [reflexivity|]. split; [apply sameButDown_refl|].
    intros code'. case_decide; reflexivity.
Qed.

(** What [handleJoystickMovement] leaves in the key table when the joystick
    is active and the bridge sees the player and the keys. *)
Lemma handleJoystickMovement_keys (c : Client) :
  joystickActive c = true ->
  windowPlayer c = true ->
  windowKeys c = true ->
  (256 <= length (keys c))%nat ->
  exists ks',
    handleJoystickMovement c = Some (set_keys ks' c)
    /\ sameButDown [KEY_W; KEY_S; KEY_A; KEY_D] (keys c) ks'
    /\ isDown ks' KEY_W
       = Qltb (Math_sin (joystickAngle c) * joystickForce c) (-0.3)
    /\ isDown ks' KEY_S
       = Qltb 0.3 (Math_sin (joystickAngle c) * joystickForce c)
    /\ isDown ks' KEY_A
       = Qltb (Math_cos (joystickAngle c) * joystickForce c) (-0.3)
    /\ isDown ks' KEY_D
       = Qltb 0.3 (Math_cos (joystickAngle c) * joystickForce c).
Proof.
  intros Hactive Hplayer Hkeys Hlen.
  set (codes := [KEY_W; KEY_S; KEY_A; KEY_D]).
  assert (HW : KEY_W ∈ codes) by (apply list_elem_of_In; cbn; tauto).
  assert (HS : KEY_S ∈ codes) by (apply list_elem_of_In; cbn; tauto).
  assert (HA : KEY_A ∈ codes) by (apply list_elem_of_In; cbn; tauto).
  assert (HD : KEY_D ∈ codes) by (apply list_elem_of_In; cbn; tauto).
  destruct (set_down_same codes KEY_W false (keys c) HW)
    as (k1 & E1 & S1 & D1); [unfold KEY_W; lia|].
  destruct (set_down_same codes KEY_S false k1 HS)
    as (k2 & E2 & S2 & D2); [rewrite (proj1 S1); unfold KEY_S; lia|].
  pose proof (sameButDown_trans _ _ _ _ S1 S2) as T2.
  destruct (set_down_same codes KEY_A false k2 HA)
    as (k3 & E3 & S3 & D3); [rewrite (proj1 T2); unfold KEY_A; lia|].
  pose proof (sameButDown_trans _ _ _ _ T2 S3) as T3.
  destruct (set_down_same codes KEY_D false k3 HD)
    as (k4 & E4 & S4 & D4); [rewrite (proj1 T3); unfold KEY_D; lia|].
  pose proof (sameButDown_trans _ _ _ _ T3 S4) as T4.
  set (moveX := Math_cos (joystickAngle c) * joystickForce c).
  set (moveY := Math_sin (joystickAngle c) * joystickForce c).
  destruct (press_if_same codes (Qltb moveY (-0.3)) KEY_W k4 HW)
    as (k5 & E5 & S5 & D5); [rewrite (proj1 T4); unfold KEY_W; lia|].
  pose proof (sameButDown_trans _ _ _ _ T4 S5) as T5.
  destruct (press_if_same codes (Qltb 0.3 moveY) KEY_S k5 HS)
    as (k6 & E6 & S6 & D6); [rewrite (proj1 T5); unfold KEY_S; lia|].
  pose proof (sameButDown_trans _ _ _ _ T5 S6) as T6.
  destruct (press_if_same codes (Qltb moveX (-0.3)) KEY_A k6 HA)
    as (k7 & E7 & S7 & D7); [rewrite (proj1 T6); unfold KEY_A; lia|].
  pose proof (sameButDown_trans _ _ _ _ T6 S7) as T7.
  destruct (press_if_same codes (Qltb 0.3 moveX) KEY_D k7 HD)
    as (k8 & E8 & S8 & D8); [rewrite (proj1 T7); unfold KEY_D; lia|].
  pose proof (sameButDown_trans _ _ _ _ T7 S8) as T8.
  exists k8. split.
  - unfold handleJoystickMovement. rewrite Hactive, Hplayer, Hkeys. cbn.
    rewrite E1. cbn. rewrite E2. cbn. rewrite E3. cbn. rewrite E4. cbn.
    fold moveX moveY. rewrite E5. cbn. rewrite E6. cbn. rewrite E7. cbn.
    rewrite E8. reflexivity.
  - split; [exact T8|].
    rewrite !D8, !D7, !D6, !D5, !D4, !D3, !D2, !D1. cbn.
    rewrite !orb_false_r. repeat split.
Qed.

(** X10: on a page where [window.player] and [window.keys] are the player
    and the key table of the client script, a joystick message presses W
    exactly when the joystick's vertical component is below -0.3, S when
    it is above 0.3, A and D likewise for the horizontal component; so it
    never presses two opposing keys.  (The page the scripts load is no
    such page: there the message presses nothing.) *)
Theorem joystick_never_presses_opposing_keys
  (angle force r1 r2 : Q) (c : Client) :
  windowPlayer c = true ->
  windowKeys c = true ->
  (256 <= length (keys c))%nat ->
  exists c',
    onMessage (JOYSTICK_MOVE angle force) r1 r2 c = Some c'
    /\ isDown (keys c') KEY_W = Qltb (Math_sin angle * force) (-0.3)
    /\ isDown (keys c') KEY_S = Qltb 0.3 (Math_sin angle * force)
    /\ isDown (keys c') KEY_A = Qltb (Math_cos angle * force) (-0.3)
    /\ isDown (keys c') KEY_D = Qltb 0.3 (Math_cos angle * force)
    /\ isDown (keys c') KEY_W && isDown (keys c') KEY_S = false
    /\ isDown (keys c') KEY_A && isDown (keys c') KEY_D = false.
Proof.
  intros Hplayer Hkeys Hlen.
  destruct (handleJoystickMovement_keys (set_joystick angle force true c)
              eq_refl Hplayer Hkeys Hlen)
    as (ks' & Hrun & _ & HW & HS & HA & HD).
  cbn in HW, HS, HA, HD.
  eexists. split; [exact Hrun|]. cbn.
  rewrite HW, HS, HA, HD.
  assert (Hopposed : forall t, Qltb t (-0.3) && Qltb 0.3 t = false).
  { intros t. destruct (Qltb t (-0.3)) eqn:E1, (Qltb 0.3 t) eqn:E2;
      try reflexivity.
    apply Qltb_lt in E1, E2. exfalso. lra. }
  rewrite !Hopposed. repeat split.
Qed.

(** X11: on a page where [window.player] and [window.keys] are the player
    and the key table of the client script, a joystick message with a
    force of at most 0.3 releases all four movement keys, whatever the
    angle, as long as the cosine and the sine of the angle lie between -1
    and 1.  (The page the scripts load is no such page: there the message
    releases nothing.) *)
Theorem weak_joystick_releases_keys (angle force r1 r2 : Q) (c : Client) :
  windowPlayer c = true ->
  windowKeys c = true ->
  (256 <= length (keys c))%nat ->
  -1 <= Math_cos angle <= 1 ->
  -1 <= Math_sin angle <= 1 ->
  0 <= force <= 0.3 ->
  exists c',
    onMessage (JOYSTICK_MOVE angle force) r1 r2 c = Some c'
    /\ isDown (keys c') KEY_W = false /\ isDown (keys c') KEY_S = false
    /\ isDown (keys c') KEY_A = false /\ isDown (keys c') KEY_D = false.
Proof.
  intros Hplayer Hkeys Hlen [Hc1 Hc2] [Hs1 Hs2] [Hf1 Hf2].
  destruct (handleJoystickMovement_keys (set_joystick angle force true c)
              eq_refl Hplayer Hkeys Hlen)
    as (ks' & Hrun & _ & HW & HS & HA & HD).
  cbn in HW, HS, HA, HD.
  eexists. split; [exact Hrun|]. cbn. rewrite HW, HS, HA, HD.
  assert (Hbound : forall t, -1 <= t <= 1 ->
                             -0.3 <= t * force /\ t * force <= 0.3).
  { intros t [Ht1 Ht2].
    assert (0 <= (1 - t) * force) by (apply Qmult_le_0_compat; lra).
    assert (0 <= (1 + t) * force) by (apply Qmult_le_0_compat; lra).
    assert ((1 - t) * force == force - t * force) by ring.
    assert ((1 + t) * force == force + t * force) by ring.
    split; lra. }
  destruct (Hbound _ (conj Hc1 Hc2)) as [Hx1 Hx2].
  destruct (Hbound _ (conj Hs1 Hs2)) as [Hy1 Hy2].
  repeat split; apply Qltb_ge; assumption.
Qed.

(** X12: a joystick message changes nothing in the key table but the
    [down] flags of W, S, A and D: the table keeps its length, every count
    and every other entry, and the player is not touched. *)
Theorem joystick_touches_four_flags
  (angle force r1 r2 : Q) (c : Client) :
  (256 <= length (keys c))%nat ->
  exists c',
    onMessage (JOYSTICK_MOVE angle force) r1 r2 c = Some c'
    /\ sameButDown [KEY_W; KEY_S; KEY_A; KEY_D] (keys c) (keys c')
    /\ player c' = player c.
Proof.
  intros Hlen.
  destruct (windowPlayer c) eqn:Hplayer, (windowKeys c) eqn:Hkeys.
  - destruct (handleJoystickMovement_keys (set_joystick angle force true c)
                eq_refl Hplayer Hkeys Hlen)
      as (ks' & Hrun & Hsame & _).
    eexists. split; [exact Hrun|]. split; [exact Hsame | reflexivity].
  - eexists. split.
    + cbn. unfold handleJoystickMovement. cbn.
      rewrite Hplayer, Hkeys. reflexivity.
    + split; [apply sameButDown_refl | reflexivity].
  - eexists. split.
    + cbn. unfold handleJoystickMovement. cbn. rewrite Hplayer. reflexivity.
    + split; [apply sameButDown_refl | reflexivity].
  - eexists. split.
    + cbn. unfold handleJoystickMovement. cbn. rewrite Hplayer. reflexivity.
    + split; [apply sameButDown_refl | reflexivity].
Qed.

(** X13: on a page where [window.player] is not the player of the client
    script, the joystick and camera messages of the bridge reach neither
    the key table nor the player. *)
Theorem bridge_inert_without_window_player
  (msg : BridgeMessage) (r1 r2 : Q) (c : Client) :
  windowPlayer c = false ->
  (exists angle force, msg = JOYSTICK_MOVE angle force)
  \/ msg = JOYSTICK_END
  \/ (exists deltaX deltaY, msg = CAMERA_MOVE deltaX deltaY) ->
  exists c',
    onMessage msg r1 r2 c = Some c'
    /\ keys c' = keys c /\ player c' = player c.
Proof.
  intros Hplayer [(angle & force & ->) | [-> | (dx & dy & ->)]]; cbn.
  - unfold handleJoystickMovement. cbn. rewrite Hplayer. cbn. eauto.
  - eauto.
  - unfold handleCameraMove. rewrite Hplayer. cbn. eauto.
Qed.

End Bridge.

Section Clicks.
Context `{Env}.
Variable getAliveCount : ServerGameState -> Z.

Lemma fire_actions (r1 r2 : Q) (c : Client) :
  p_actions (player (fire r1 r2 c))
  = p_actions (player c)
    ++ [mkEntity SHOOT (p_x (player c)) (p_y (player c)) (p_z (player c))
          (v0 (aim (player c))) (v1 (aim (player c))) (v2 (aim (player c)))].
Proof. reflexivity. Qed.

Lemma fire_not_quiet (r1 r2 : Q) (c c0 : Client) :
  p_actions (player c0) = p_actions (player c) -> fire r1 r2 c <> c0.
Proof.
  intros Hact Heq.
  apply (f_equal (fun c => length (p_actions (player c)))) in Heq.
  rewrite fire_actions, Hact, length_app in Heq. cbn in Heq. lia.
Qed.

Lemma fire_not_identity (r1 r2 : Q) (c : Client) : fire r1 r2 c <> c.
Proof. apply fire_not_quiet. reflexivity. Qed.

Lemma fire_not_join (r1 r2 : Q) (c c0 : Client) :
  p_actions (player c0) = p_actions (player (createClientEvent JOIN c)) ->
  fire r1 r2 c <> c0.
Proof.
  intros Hact Heq. apply (f_equal (fun c => p_actions (player c))) in Heq.
  rewrite fire_actions, Hact in Heq. cbn in Heq.
  apply app_inj_tail in Heq as [_ Heq]. discriminate.
Qed.

Lemma pageShoot_client (r1 r2 : Q) (pg pg' : Page) :
  pageShoot r1 r2 pg = Some pg' ->
  shoot r1 r2 (client pg) = Some (client pg').
Proof.
  unfold pageShoot, held_fire, shoot.
  destruct (gameState (client pg)) as [l|]; cbn.
  - destruct (heap (client pg) !! l) as [g|]; cbn; [|discriminate].
    destruct (negb _); intros [= <-]; reflexivity.
  - intros [= <-]. reflexivity.
Qed.

(** X14: a click fires a shot exactly when it is a click of the left
    button while a snapshot of a match is stored that shows the player
    alive and the match started with an alive count other than one, the
    map overlay is closed and the pointer is locked. *)
Theorem click_fires_exactly_when
  (button : Z) (overJoin overName : bool) (answer : option (list ascii))
  (r1 r2 : Q) (pg pg' : Page) :
  onClick getAliveCount button overJoin overName answer r1 r2 pg = Some pg' ->
  client pg' = fire r1 r2 (client pg)
  <-> (button = 0%Z
       /\ mapOpen (client pg) = false
       /\ pointerLocked (client pg) = true
       /\ exists l g,
            gameState (client pg) = Some l
            /\ heap (client pg) !! l = Some g
            /\ gameId g <> LOBBY_ID
            /\ isCurrentPlayerAlive g = true
            /\ getAliveCount g <> 1%Z
            /\ isStarted g = true).
Proof.
  unfold onClick. destruct (Z.eqb_spec button 0) as [->|Hbutton]; cbn.
  2: { intros [= <-]. split; [intros Heq; symmetry in Heq|intros [? _]];
       [destruct (fire_not_identity _ _ _ Heq) | contradiction]. }
  set (pg0 := if Audio.suspended (audio pg) then _ else pg).
  assert (Hc : client pg0 = client pg)
    by (unfold pg0; destruct (Audio.suspended _); reflexivity).
  rewrite Hc.
  assert (Hquiet : forall pg1 : Page, client pg1 = client pg ->
            client pg1 = fire r1 r2 (client pg) -> False).
  { intros pg1 -> Heq. symmetry in Heq.
    exact (fire_not_identity _ _ _ Heq). }
  destruct (gameState (client pg)) as [l|] eqn:Hstate.
  2: { intros [= <-]. split; [intros Heq; destruct (Hquiet _ Hc Heq)|].
       intros (_ & _ & _ & l & g & Hl & _). discriminate. }
  destruct (heap (client pg) !! l) as [g|] eqn:Hheap; cbn; [|discriminate].
  destruct (Z.eqb_spec (gameId g) LOBBY_ID) as [Hlobby|Hmatch].
  { intros [= <-]. split.
    - intros Heq. exfalso. symmetry in Heq. revert Heq.
      unfold clickLobby. destruct overJoin, overName, answer as [[|ch rest]|];
        cbn; rewrite ?Hc;
        first [apply fire_not_join; reflexivity
              | apply fire_not_quiet; reflexivity].
    - intros (_ & _ & _ & l' & g' & Hl & Hg & Hne & _).
      simplify_eq; congruence. }
  destruct (isCurrentPlayerAlive g) eqn:Halive; cbn.
  2: { destruct (Hud.isMouseOverExitButton _); intros [= <-];
       (split; [intros Heq; destruct (Hquiet _ Hc Heq)|]);
       intros (_ & _ & _ & l' & g' & Hl & Hg & _ & Hal & _);
       simplify_eq; congruence. }
  destruct (Z.eqb_spec (getAliveCount g) 1) as [Hone|Hmany]; cbn.
  { destruct (Hud.isMouseOverExitButton _); intros [= <-];
      (split; [intros Heq; destruct (Hquiet _ Hc Heq)|]);
      intros (_ & _ & _ & l' & g' & Hl & Hg & _ & _ & Hcount & _);
      simplify_eq; congruence. }
  destruct (mapOpen (client pg)) eqn:Hopen.
  { intros [= <-]. split; [intros Heq; destruct (Hquiet _ Hc Heq)|].
    intros (_ & Hclosed & _). discriminate. }
  destruct (pointerLocked (client pg)) eqn:Hlocked; cbn.
  2: { intros [= <-]. split; [intros Heq; destruct (Hquiet _ Hc Heq)|].
       intros (_ & _ & Hlock & _). discriminate. }
  destruct (isStarted g) eqn:Hstarted; cbn.
  2: { intros [= <-]. split; [intros Heq; destruct (Hquiet _ Hc Heq)|].
       intros (_ & _ & _ & l' & g' & Hl & Hg & _ & _ & _ & Hst).
       simplify_eq; congruence. }
  intros Hshot%pageShoot_client. rewrite Hc in Hshot.
  unfold shoot in Hshot. rewrite Hstate in Hshot. cbn in Hshot.
  rewrite Hheap in Hshot. cbn in Hshot. rewrite Halive in Hshot.
  cbn in Hshot. injection Hshot as <-. split; [|reflexivity].
  intros _. split; [reflexivity|]. split; [reflexivity|].
  split; [reflexivity|]. exists l, g. repeat split; assumption.
Qed.

(** X15: a click on the join button of the lobby queues one [JOIN] entity
    with the position and the aim of the player, plays the pickup sound and
    leaves the orientation of the player as it is. *)
Theorem lobby_click_joins
  (answer : option (list ascii)) (r1 r2 : Q) (pg : Page)
  (l : loc) (g : ServerGameState) :
  gameState (client pg) = Some l ->
  heap (client pg) !! l = Some g ->
  gameId g = LOBBY_ID ->
  exists pg',
    onClick getAliveCount 0 true false answer r1 r2 pg = Some pg'
    /\ p_actions (player (client pg'))
       = p_actions (player (client pg))
         ++ [mkEntity JOIN (p_x (player (client pg)))
               (p_y (player (client pg))) (p_z (player (client pg)))
               (v0 (aim (player (client pg))))
               (v1 (aim (player (client pg))))
               (v2 (aim (player (client pg))))]
    /\ p_pitch (player (client pg')) = p_pitch (player (client pg))
    /\ p_yaw (player (client pg')) = p_yaw (player (client pg))
    /\ exists sound,
         Audio.gunfire (audio pg') = Audio.gunfire (audio pg) ++ [sound]
         /\ Audio.startGain sound == 10
         /\ Audio.stopTime sound == Audio.currentTime (audio pg) + 0.2.
Proof.
  intros Hstate Hheap Hlobby. unfold onClick. cbn.
  destruct (Audio.suspended (audio pg)) eqn:Hsus; cbn;
    rewrite Hstate; cbn; rewrite Hheap; cbn;
    rewrite Hlobby, Z.eqb_refl; eexists; (split; [reflexivity|]);
    cbn; (split; [reflexivity|]); (split; [reflexivity|]);
    (split; [reflexivity|]); eexists; (split; [reflexivity|]);
    cbn; change (Qeq_bool 0.2 0) with false; cbn; split;
    first [reflexivity | ring].
Qed.

(** X16: a name entered at the prompt of the lobby becomes the name of the
    player and the stored name, so that the next load of the page starts
    with it; an empty or cancelled prompt changes neither. *)
Theorem prompted_name_is_kept
  (overJoin : bool) (answer : option (list ascii)) (r1 r2 : Q) (pg : Page)
  (l : loc) (g : ServerGameState)
  (generated : list ascii) (ks : list Key) (wp wk ws suspend : bool)
  (innerWidth innerHeight : Z) :
  gameState (client pg) = Some l ->
  heap (client pg) !! l = Some g ->
  gameId g = LOBBY_ID ->
  exists pg',
    onClick getAliveCount 0 overJoin true answer r1 r2 pg = Some pg'
    /\ match answer with
       | Some (ch :: rest) =>
           p_name (player (client pg')) = ch :: rest
           /\ storage pg' !! Storage.nameKey = Some (ch :: rest)
           /\ p_name (player (client
                (load generated ks wp wk ws suspend innerWidth innerHeight
                   (storage pg'))))
              = ch :: rest
       | Some [] | None =>
           p_name (player (client pg')) = p_name (player (client pg))
           /\ storage pg' = storage pg
       end.
Proof.
  intros Hstate Hheap Hlobby. unfold onClick. cbn.
  assert (Hstored : forall (name : list ascii) (s : Storage.t),
            Storage.setPlayerName name s !! Storage.nameKey = Some name)
    by (intros; apply lookup_insert_eq).
  destruct (Audio.suspended (audio pg)) eqn:Hsus; cbn;
    rewrite Hstate; cbn; rewrite Hheap; cbn;
    rewrite Hlobby, Z.eqb_refl; eexists; (split; [reflexivity|]);
    unfold clickLobby, load, Storage.getPlayerName;
    destruct overJoin, answer as [[|ch rest]|]; cbn;
    rewrite ?Hstored; cbn; repeat split; apply Hstored.
Qed.

Lemma clickLobby_actions (overJoin overName : bool)
  (answer : option (list ascii)) (pg : Page) :
  p_actions (player (client (clickLobby overJoin overName answer pg)))
  = if overJoin
    then p_actions (player (createClientEvent JOIN (client pg)))
    else p_actions (player (client pg)).
Proof.
  unfold clickLobby.
  destruct overJoin, overName, answer as [[|ch rest]|]; reflexivity.
Qed.

(** X8: the pending actions of the player are never removed or rewritten.
    After the update, key, mouse and bridge listeners, [initGame] or a
    frame the queue is as it was or has one [SHOOT] entity appended; after
    the click listener it is as it was or has one [SHOOT] or one [JOIN]
    entity appended.  The appended entity holds the position and the aim
    the player had before. *)
Theorem actions_only_grow :
  (forall (e : Event) (c c' : Client),
     dispatch e c = Some c' ->
     p_actions (player c') = p_actions (player c)
     \/ p_actions (player c')
        = p_actions (player c)
          ++ [mkEntity SHOOT (p_x (player c)) (p_y (player c))
                (p_z (player c)) (v0 (aim (player c)))
                (v1 (aim (player c))) (v2 (aim (player c)))])
  /\ (forall (button : Z) (overJoin overName : bool)
             (answer : option (list ascii)) (r1 r2 : Q) (pg pg' : Page),
        onClick getAliveCount button overJoin overName answer r1 r2 pg
        = Some pg' ->
        p_actions (player (client pg')) = p_actions (player (client pg))
        \/ exists eventType,
             (eventType = SHOOT \/ eventType = JOIN)
             /\ p_actions (player (client pg'))
                = p_actions (player (client pg))
                  ++ [mkEntity eventType (p_x (player (client pg)))
                        (p_y (player (client pg)))
                        (p_z (player (client pg)))
                        (v0 (aim (player (client pg))))
                        (v1 (aim (player (client pg))))
                        (v2 (aim (player (client pg))))]).
Proof.
  split; [exact dispatch_actions|].
  intros button overJoin overName answer r1 r2 pg pg'.
  unfold onClick. destruct (negb _); [intros [= <-]; left; reflexivity|].
  set (pg0 := if Audio.suspended (audio pg) then _ else pg).
  assert (Hc : client pg0 = client pg)
    by (unfold pg0; destruct (Audio.suspended _); reflexivity).
  clearbody pg0. rewrite <- Hc.
  destruct (gameState (client pg0)) as [l|];
    [|intros [= <-]; left; reflexivity].
  destruct (heap (client pg0) !! l) as [g|]; cbn; [|discriminate].
  destruct (_ =? _)%Z.
  { intros [= <-]. rewrite clickLobby_actions. destruct overJoin;
      [right; exists JOIN; split; [right|]; reflexivity | left; reflexivity]. }
  destruct (_ || _).
  { destruct (Hud.isMouseOverExitButton _); intros [= <-]; left;
      reflexivity. }
  destruct (mapOpen _); [intros [= <-]; left; reflexivity|].
  destruct (negb _); [intros [= <-]; left; reflexivity|].
  destruct (_ && _); [|intros [= <-]; left; reflexivity].
  intros [-> | ->]%pageShoot_client%shoot_cases;
    [left; reflexivity|].
  right. exists SHOOT. split; [left|]; reflexivity.
Qed.

End Clicks.

Section Stored.

(** X17: [getPlayerName] returns the stored name when there is a non-empty
    one and leaves the storage alone; otherwise it returns the generated
    name and stores it.  Either way only the item [n] can change, and a
    second call returns the same name unless that name is empty. *)
Theorem stored_name_round_trip (generated again : list ascii)
  (s : Storage.t) :
  let name := fst (Storage.getPlayerName generated s) in
  let s' := snd (Storage.getPlayerName generated s) in
  (forall ch rest, s !! Storage.nameKey = Some (ch :: rest) ->
                   name = ch :: rest /\ s' = s)
  /\ (s !! Storage.nameKey = None \/ s !! Storage.nameKey = Some [] ->
      name = generated /\ s' = Storage.setPlayerName generated s)
  /\ (forall key, key <> Storage.nameKey -> s' !! key = s !! key)
  /\ (name <> [] -> Storage.getPlayerName again s' = (name, s')).
Proof.
  cbn. unfold Storage.getPlayerName, Storage.setPlayerName.
  unfold Storage.t in *.
  assert (Hother : forall (name : list ascii) (key : list ascii),
            key <> Storage.nameKey ->
            <[Storage.nameKey := name]> s !! key = s !! key).
  { intros name key Hkey. apply lookup_insert_ne. intros Heq.
    apply Hkey. symmetry. exact Heq. }
  destruct (s !! Storage.nameKey) as [[|ch rest]|] eqn:Hs;
    cbn [fst snd].
  - split; [discriminate|]. split; [auto|]. split; [apply Hother|].
    intros Hname. rewrite lookup_insert_eq.
    destruct generated; [contradiction | reflexivity].
  - split; [intros ? ? [= <- <-]; auto|].
    split; [intros [?|?]; discriminate|]. split; [reflexivity|].
    intros _. rewrite Hs. reflexivity.
  - split; [discriminate|]. split; [auto|]. split; [apply Hother|].
    intros Hname. rewrite lookup_insert_eq.
    destruct generated; [contradiction | reflexivity].
Qed.

End Stored.

Section HudGeometry.

Lemma toInt32_half (w : Z) :
  (0 <= w < 4294967296)%Z -> Hud.toInt32 (inject_Z w / 2) = (w / 2)%Z.
Proof.
  intros Hw. unfold Hud.toInt32.
  change (inject_Z w / 2) with ((w * 1) # 2).
  cbn [Qnum]. destruct (0 <=? w * 1)%Z eqn:Hsign;
    [|apply Z.leb_gt in Hsign; lia].
  unfold Qfloor. rewrite Z.mul_1_r.
  assert (0 <= w / 2 < 2147483648)%Z
    by (split; [apply Z.div_pos; lia | apply Z.div_lt_upper_bound; lia]).
  rewrite Z.mod_small by lia. lia.
Qed.

(** X18: after the window has been resized to a width and a height of
    less than 2^32 and the mouse has moved, the centre is half the size
    rounded down, and the mouse is over the exit button exactly when it is
    strictly inside the box 60 to either side of the centre and from 50 to
    90 below it. *)
Theorem exit_button_after_resize (w h : Z) (x y : Q) (h0 : Hud.State) :
  (0 <= w < 4294967296)%Z ->
  (0 <= h < 4294967296)%Z ->
  Hud.centerX (Hud.onMouseMove x y (Hud.handleResizeEvent w h h0))
  = (w / 2)%Z
  /\ Hud.centerY (Hud.onMouseMove x y (Hud.handleResizeEvent w h h0))
     = (h / 2)%Z
  /\ (Hud.isMouseOverExitButton
        (Hud.onMouseMove x y (Hud.handleResizeEvent w h h0)) = true
      <-> inject_Z (w / 2) - 60 < x /\ x < inject_Z (w / 2) + 60
          /\ inject_Z (h / 2) + 50 < y /\ y < inject_Z (h / 2) + 90).
Proof.
  intros Hw Hh. unfold Hud.isMouseOverExitButton. cbn -[Hud.toInt32 Qdiv].
  rewrite !toInt32_half by assumption.
  split; [reflexivity|]. split; [reflexivity|].
  rewrite !andb_true_iff, !Qltb_lt.
  assert (Hhalf : (120 : Q) / 2 == 60) by reflexivity.
  split; [intros [[[H1 H2] H3] H4] | intros (H1 & H2 & H3 & H4)];
    repeat split; lra.
Qed.

End HudGeometry.

Section Sound.

Lemma playGunfire_heard (distance : Q) (opt_length : option Q) (now : Q) :
  distance <= 500 ->
  Audio.playGunfire distance opt_length now
  = Some (Audio.mkGunfire now
            (10 * ((1.0 - distance / 500.0) * (1.0 - distance / 500.0)))
            (now + 0.7 * Audio.lengthOr1 opt_length)
            (now + Audio.lengthOr1 opt_length)
            (1000 - distance) (5000 - 10 * distance)
            (Math_max 1 (10 - distance / 50))).
Proof.
  intros Hnear. unfold Audio.playGunfire.
  apply Qltb_ge in Hnear. rewrite Hnear. reflexivity.
Qed.

(** X19: a gun farther away than 500 makes no sound; one at a distance
    between 0 and 500 is played with a starting gain between 0 and 10, a
    lowpass frequency between 500 and 1000, a bass frequency between 0 and
    5000 and a bass gain between 1 and 10. *)
Theorem gunfire_within_range (distance : Q) (opt_length : option Q)
  (now : Q) :
  (500 < distance -> Audio.playGunfire distance opt_length now = None)
  /\ (0 <= distance <= 500 ->
      exists sound,
        Audio.playGunfire distance opt_length now = Some sound
        /\ 0 <= Audio.startGain sound <= 10
        /\ 500 <= Audio.lowpassFrequency sound <= 1000
        /\ 0 <= Audio.bassBoostFrequency sound <= 5000
        /\ 1 <= Audio.bassBoostGain sound <= 10).
Proof.
  split.
  - intros Hfar. unfold Audio.playGunfire.
    apply Qltb_lt in Hfar. rewrite Hfar. reflexivity.
  - intros [Hlo Hhi]. eexists.
    split; [apply playGunfire_heard; exact Hhi|]. cbn.
    set (a := 1.0 - distance / 500.0).
    assert (Ha : 0 <= a /\ a <= 1).
    { unfold a. assert (distance / 500.0 == distance * (1 # 500))
        by field. split; lra. }
    destruct Ha as [Ha0 Ha1].
    assert (Hsq0 : 0 <= a * a) by (apply Qmult_le_0_compat; assumption).
    assert (Hsq1 : 0 <= (1 - a) * a) by (apply Qmult_le_0_compat; lra).
    assert ((1 - a) * a == a - a * a) by ring.
    assert (distance / 50 == distance * (1 # 50)) by field.
    split; [split; lra|]. split; [split; lra|]. split; [split; lra|].
    unfold Math_max. destruct (Qltb 1 _) eqn:E;
      rewrite ?Qltb_lt, ?Qltb_ge in E; split; lra.
Qed.

(** X20: of two guns heard at distances between 0 and 500, the farther
    one never starts louder than the nearer one. *)
Theorem farther_gunfire_is_no_louder (d1 d2 : Q) (len1 len2 : option Q)
  (now1 now2 : Q) :
  0 <= d1 ->
  d1 <= d2 ->
  d2 <= 500 ->
  exists near far,
    Audio.playGunfire d1 len1 now1 = Some near
    /\ Audio.playGunfire d2 len2 now2 = Some far
    /\ Audio.startGain far <= Audio.startGain near.
Proof.
  intros H0 Hle Hhi. eexists. eexists.
  split; [apply playGunfire_heard; lra|].
  split; [apply playGunfire_heard; exact Hhi|]. cbn.
  set (a := 1.0 - d1 / 500.0). set (b := 1.0 - d2 / 500.0).
  assert (Hab : 0 <= b /\ b <= a).
  { unfold a, b.
    assert (d1 / 500.0 == d1 * (1 # 500)) by field.
    assert (d2 / 500.0 == d2 * (1 # 500)) by field.
    split; lra. }
  destruct Hab as [Hb Hba].
  assert (0 <= (a - b) * (a + b)) by (apply Qmult_le_0_compat; lra).
  assert ((a - b) * (a + b) == a * a - b * b) by ring.
  lra.
Qed.

(** X21: the effect lasts for the length that is given, and for one second
    when the length is missing or zero; with a positive length the ramp of
    the envelope ends after the start and before the sound is cut. *)
Theorem gunfire_envelope_times (distance : Q) (opt_length : option Q)
  (now : Q) (sound : Audio.Gunfire) :
  Audio.playGunfire distance opt_length now = Some sound ->
  Audio.startTime sound = now
  /\ (opt_length = None \/ opt_length = Some 0 ->
      Audio.stopTime sound == now + 1)
  /\ (forall l, opt_length = Some l -> ~ l == 0 ->
                Audio.stopTime sound = now + l)
  /\ (0 < Audio.lengthOr1 opt_length ->
      now < Audio.rampEnd sound /\ Audio.rampEnd sound < Audio.stopTime sound).
Proof.
  unfold Audio.playGunfire. destruct (Qltb 500 distance); [discriminate|].
  intros [= <-]. cbn. split; [reflexivity|]. split; [|split].
  - intros [-> | ->]; reflexivity.
  - intros l -> Hl. cbn. destruct (Qeq_bool l 0) eqn:E; [|reflexivity].
    apply Qeq_bool_iff in E. contradiction.
  - intros Hpos. split; lra.
Qed.

Lemma stopMusic_silent (a : Audio.State) :
  Audio.oneSource a ->
  Audio.playing (Audio.stopMusic a) = []
  /\ Audio.currentMusicSource (Audio.stopMusic a) = None
  /\ Audio.created (Audio.stopMusic a) = Audio.created a.
Proof.
  intros [Hplaying _]. unfold Audio.stopMusic.
  destruct (Audio.currentMusicSource a) as [node|] eqn:Hcurrent; cbn.
  - rewrite Hplaying. cbn. rewrite Nat.eqb_refl. repeat split.
  - rewrite Hcurrent. repeat split. exact Hplaying.
Qed.

Lemma playMusicInternal_one (a : Audio.State) :
  Audio.oneSource a ->
  Audio.playing (Audio.playMusicInternal a) = [Audio.created a]
  /\ Audio.currentMusicSource (Audio.playMusicInternal a)
     = Some (Audio.created a)
  /\ Audio.created (Audio.playMusicInternal a) = S (Audio.created a).
Proof.
  intros Hone. destruct (stopMusic_silent a Hone) as (Hp & _ & Hc).
  unfold Audio.playMusicInternal. cbn. rewrite Hp, Hc. repeat split.
Qed.

Lemma oneSource_stopMusic (a : Audio.State) :
  Audio.oneSource a -> Audio.oneSource (Audio.stopMusic a).
Proof.
  intros Hone. destruct (stopMusic_silent a Hone) as (Hp & Hc & _).
  split; rewrite Hc; [exact Hp | discriminate].
Qed.

Lemma oneSource_playMusicInternal (a : Audio.State) :
  Audio.oneSource a -> Audio.oneSource (Audio.playMusicInternal a).
Proof.
  intros Hone. destruct (playMusicInternal_one a Hone) as (Hp & Hc & Hn).
  split; rewrite Hc; [exact Hp|]. intros node [= <-]. rewrite Hn. lia.
Qed.

Lemma oneSource_step (e : Audio.Event) (a : Audio.State) :
  Audio.oneSource a -> Audio.oneSource (Audio.step e a).
Proof.
  intros Hone. destruct e as [buffer| |resolved|enabled|distance len]; cbn.
  - exact Hone.
  - exact Hone.
  - destruct (Audio.resuming a) as [|continuation rest]; [exact Hone|].
    destruct resolved; [|exact Hone].
    destruct continuation; [|exact Hone].
    apply oneSource_playMusicInternal. exact Hone.
  - destruct enabled; cbn; [|apply oneSource_stopMusic; exact Hone].
    unfold Audio.playMusic. destruct (Audio.musicBuffer a); [|exact Hone].
    destruct (Audio.suspended a);
      [exact Hone | apply oneSource_playMusicInternal; exact Hone].
  - unfold Audio.add_gunfire. destruct (Audio.playGunfire _ _ _); exact Hone.
Qed.

(** X22: whatever happens to the sound script, in whatever order, at most
    one music source sounds at a time, and it is the one the script holds
    as the current source. *)
Theorem at_most_one_music_source (suspend : bool)
  (events : list Audio.Event) :
  Audio.oneSource (Audio.run events (Audio.initial suspend))
  /\ (length (Audio.playing (Audio.run events (Audio.initial suspend)))
      <= 1)%nat.
Proof.
  assert (Hrun : forall a, Audio.oneSource a ->
                           Audio.oneSource (Audio.run events a)).
  { induction events as [|e events IH]; intros a Hone; [exact Hone|].
    cbn. apply IH, oneSource_step. exact Hone. }
  assert (Hone : Audio.oneSource (Audio.run events (Audio.initial suspend))).
  { apply Hrun. split; [reflexivity | discriminate]. }
  split; [exact Hone|]. destruct Hone as [-> _].
  destruct (Audio.currentMusicSource _); cbn; lia.
Qed.


(** X24: when the music is switched on while the audio context is
    suspended, nothing sounds before the context has resumed; once it has
    resumed the music starts, even if it has been switched off in
    between. *)
Theorem music_starts_after_resume (a : Audio.State) (buffer : nat) :
  Audio.oneSource a ->
  Audio.musicBuffer a = Some buffer ->
  Audio.suspended a = true ->
  Audio.resuming a = [] ->
  Audio.playing (Audio.run [Audio.SetMusicEnabled true] a) = Audio.playing a
  /\ Audio.playing
       (Audio.run [Audio.SetMusicEnabled true; Audio.SetMusicEnabled false]
          a) = []
  /\ Audio.playing
       (Audio.run [Audio.SetMusicEnabled true; Audio.SetMusicEnabled false;
                   Audio.ResumeSettled true] a) = [Audio.created a].
Proof.
  intros Hone Hbuffer Hsuspended Hnone. cbn.
  unfold Audio.playMusic. rewrite Hbuffer, Hsuspended. cbn.
  rewrite Hnone. cbn.
  set (a1 := Audio.set_resuming true [Audio.ThenPlayMusic] a).
  assert (Hone1 : Audio.oneSource a1) by exact Hone.
  destruct (stopMusic_silent a1 Hone1) as (Hp & Hc & Hn).
  split; [reflexivity|]. split; [exact Hp|].
  assert (Hresume : Audio.resuming (Audio.stopMusic a1)
                    = [Audio.ThenPlayMusic]).
  { unfold Audio.stopMusic. destruct (Audio.currentMusicSource a1);
      reflexivity. }
  rewrite Hresume.
  set (a2 := Audio.set_resuming false [] (Audio.stopMusic a1)).
  assert (Hone2 : Audio.oneSource a2)
    by (apply (oneSource_stopMusic a1); exact Hone1).
  destruct (playMusicInternal_one a2 Hone2) as (Hp2 & _).
  rewrite Hp2. cbn. rewrite Hn. reflexivity.
Qed.

End Sound.
(** * The properties on the sample page *)

#[local] Existing Instance Sample.env.

(** The bookkeeping of [tick] counts the frames a key is held. *)
Lemma tick_counts_held_frames : countsHeldFrames (map tick).
Proof.
  intros ks k Hk Hdown. rewrite list_lookup_fmap, Hk. cbn.
  unfold tick. rewrite Hdown. reflexivity.
Qed.

Lemma ground_clamp_and_jump_witness :
  (gameMap Sample.jumping = Some (Sample.newMap 42)
   /\ keysReady Sample.jumping
   /\ exists p space c',
        beforeClamp 1 Sample.jumping = Some p
        /\ updateKeys (keys Sample.jumping) !! KEY_SPACE = Some space
        /\ handleKeys 1 Sample.jumping = Some c'
        /\ p_x (player c') = p_x p /\ p_z (player c') = p_z p
        /\ (p_y p - PLAYER_HALF_HEIGHT
              < getY (Sample.newMap 42) (p_x p) (p_z p) ->
            p_y (player c')
            = getY (Sample.newMap 42) (p_x (player c')) (p_z (player c'))
              + PLAYER_HALF_HEIGHT
            /\ p_dy (player c')
               = if (downCount space =? 1)%Z then JUMP_POWER else 0)
        /\ (jumpImpulse 1 Sample.jumping = true ->
            p_dy (player c') = JUMP_POWER)
        /\ (~ p_y p - PLAYER_HALF_HEIGHT
                < getY (Sample.newMap 42) (p_x p) (p_z p) ->
            player c' = p))
  /\ (countsHeldFrames updateKeys
      /\ keys Sample.jumping !! KEY_SPACE = Some (mkKey true 0)
      /\ heldFrames Sample.jumping 1
      /\ (1 <= 1)%nat).
Proof.
  assert (Hheld : heldFrames Sample.jumping 1).
  { apply (held_frame Sample.jumping Sample.jumping Sample.jumped 1 0);
      [reflexivity | vm_compute; reflexivity |].
    apply (held_frame Sample.jumped Sample.jumped Sample.landed 1 0);
      [reflexivity | vm_compute; reflexivity | apply held_done]. }
  assert (Hready : keysReady Sample.jumping) by (vm_compute; lia).
  destruct (ground_clamp_and_jump (H := Sample.env)) as [Hclamp Hjump].
  split.
  - split; [reflexivity|]. split; [exact Hready|].
    exact (Hclamp 1 Sample.jumping (Sample.newMap 42) eq_refl Hready).
  - split; [exact tick_counts_held_frames|]. split; [reflexivity|].
    split; [exact Hheld|].
    exact (Hjump tick_counts_held_frames Sample.jumping (mkKey true 0) 1%nat
             eq_refl eq_refl Hheld).
Defined.

Lemma wrap_canonical (a : Q) : canonical (Sample.wrap a).
Proof.
  unfold canonical, Sample.wrap. cbv zeta.
  set (T := 2 * Math_PI).
  assert (HT : 0 < T) by reflexivity.
  set (q := (a + Math_PI) / T).
  assert (Hq : T * q == a + Math_PI) by (unfold q; field; lra).
  pose proof (Qfloor_le q) as Hlo.
  pose proof (Qlt_floor q) as Hhi.
  rewrite inject_Z_plus in Hhi. change (inject_Z 1) with 1 in Hhi.
  set (f := inject_Z (Qfloor q)) in *.
  assert (H1 : T * f <= T * q) by (apply Qmult_le_l; assumption).
  assert (H2 : T * q < T * (f + 1)) by (apply Qmult_lt_l; assumption).
  unfold T in *. split; lra.
Qed.

(** With the W key held for a frame of one second, the vertical velocity
    before the clamp is -160.02, not the -160 that gravity alone gives. *)
Lemma forward_key_lowers_vertical_velocity :
  exists p,
    gameMap Sample.forwardHeld = Some (Sample.newMap 42)
    /\ 0 <= 1
    /\ beforeClamp 1 Sample.forwardHeld = Some p
    /\ p_dy p == -160.02
    /\ ~ p_dy p == p_dy (player Sample.forwardHeld) - GRAVITY * 1.
Proof.
  eexists. split; [reflexivity|]. split; [discriminate|].
  split; [vm_compute; reflexivity|]. split; [reflexivity | discriminate].
Qed.

Lemma vertical_velocity_before_clamp_witness :
  gameMap Sample.forwardHeld = Some (Sample.newMap 42)
  /\ keysReady Sample.forwardHeld
  /\ exists p,
       beforeClamp 1 Sample.forwardHeld = Some p
       /\ p_dy p == p_dy (player Sample.forwardHeld)
                    - 0.02 * branchesTaken (updateKeys (keys Sample.forwardHeld))
                    - GRAVITY * 1.
Proof.
  assert (Hready : keysReady Sample.forwardHeld) by (vm_compute; lia).
  split; [reflexivity|]. split; [exact Hready|].
  exact (vertical_velocity_before_clamp 1 Sample.forwardHeld
           (Sample.newMap 42) eq_refl Hready).
Defined.

Lemma horizontal_velocity_by_precedence_witness :
  gameMap Sample.forwardHeld = Some (Sample.newMap 42)
  /\ keysReady Sample.forwardHeld
  /\ exists c',
       handleKeys 1 Sample.forwardHeld = Some c'
       /\ (p_dx (player c'), p_dz (player c'))
          = byPrecedence (updateKeys (keys Sample.forwardHeld))
              (rotateY forward origin (p_yaw (player Sample.forwardHeld))).
Proof.
  assert (Hready : keysReady Sample.forwardHeld) by (vm_compute; lia).
  split; [reflexivity|]. split; [exact Hready|].
  exact (horizontal_velocity_by_precedence 1 Sample.forwardHeld
           (Sample.newMap 42) eq_refl Hready).
Defined.

Lemma dynamic_buffers_rebuilt_in_order_witness :
  gameState Sample.inMatch = Some 1%positive
  /\ heap Sample.inMatch !! 1%positive = Some Sample.match1
  /\ gameId Sample.match1 <> LOBBY_ID
  /\ staticBuffers Sample.inMatch = Some [WorldQuad 0; WorldQuad 1]
  /\ dynamicBuffers Sample.inMatch = Some []
  /\ keysReady Sample.inMatch
  /\ Forall (fun q => q <> BlueCircleQuad) [WorldQuad 0; WorldQuad 1]
  /\ exists c',
       render 16 Sample.inMatch = Some c'
       /\ dynamicBuffers c' = Some (frameQuads Sample.match1 Sample.inMatch)
       /\ staticBuffers c' = Some [WorldQuad 0; WorldQuad 1]
       /\ glCalls c' =
            glCalls Sample.inMatch
            ++ [UpdateBuffers (frameQuads Sample.match1 Sample.inMatch);
                ResetGl; SetupCamera; Render [WorldQuad 0; WorldQuad 1];
                Render (frameQuads Sample.match1 Sample.inMatch); DrawHud]
       /\ drawn [UpdateBuffers (frameQuads Sample.match1 Sample.inMatch);
                 ResetGl; SetupCamera; Render [WorldQuad 0; WorldQuad 1];
                 Render (frameQuads Sample.match1 Sample.inMatch); DrawHud]
          = [WorldQuad 0; WorldQuad 1]
            ++ frameQuads Sample.match1 Sample.inMatch
       /\ translucentLast
            ([WorldQuad 0; WorldQuad 1]
             ++ frameQuads Sample.match1 Sample.inMatch).
Proof.
  assert (Hready : keysReady Sample.inMatch) by (vm_compute; lia).
  assert (Hgame : gameId Sample.match1 <> LOBBY_ID) by discriminate.
  assert (Hopaque : Forall (fun q => q <> BlueCircleQuad)
                      [WorldQuad 0; WorldQuad 1])
    by (repeat constructor; discriminate).
  split; [reflexivity|]. split; [reflexivity|]. split; [exact Hgame|].
  split; [reflexivity|]. split; [reflexivity|]. split; [exact Hready|].
  split; [exact Hopaque|].
  exact (dynamic_buffers_rebuilt_in_order 16 Sample.inMatch 1%positive
           Sample.match1 [WorldQuad 0; WorldQuad 1] [] eq_refl eq_refl Hgame
           eq_refl eq_refl Hready Hopaque).
Defined.

Lemma joystick_asserts_no_intent_witness :
  windowPlayer Sample.fresh = false
  /\ exists c1 c2,
       onMessage (JOYSTICK_MOVE 0 1) 0 0 Sample.fresh = Some c1
       /\ onMessage JOYSTICK_END 0 0 c1 = Some c2
       /\ joystickForce c1 = 1
       /\ joystickActive c1 = true
       /\ keys c1 = keys Sample.fresh
       /\ (forall code,
             isDown (keys c1) code = isDown (keys Sample.fresh) code)
       /\ joystickForce c2 = 0
       /\ joystickActive c2 = false
       /\ keys c2 = keys Sample.fresh.
Proof.
  split; [reflexivity|].
  exact (joystick_asserts_no_intent 0 1 0 0 Sample.fresh eq_refl).
Defined.

(** The joystick pushed to angle 0 with force 1 on the freshly loaded
    page, where no key is down: the message is accepted and the force
    stored, and none of the four movement keys is down afterwards. *)
Lemma joystick_right_presses_nothing :
  exists c1,
    onMessage (JOYSTICK_MOVE 0 1) 0 0 Sample.fresh = Some c1
    /\ joystickActive c1 = true
    /\ joystickForce c1 = 1
    /\ isDown (keys c1) KEY_D = false
    /\ isDown (keys c1) KEY_A = false
    /\ isDown (keys c1) KEY_W = false
    /\ isDown (keys c1) KEY_S = false.
Proof. eexists. split; [reflexivity|]. repeat split. Qed.

(** Three hundred shots with the F key on the freshly loaded page, each
    with a recoil of 0.015 in pitch: every one of them is an update of the
    orientation, and after the last the pitch has gone from 0.1 to -4.4,
    below the canonical range. *)
Lemma recoil_volley_leaves_range :
  reachable [] Sample.noKeys false true true
    (volley (3 # 4) (1 # 2) 300 Sample.fresh)
  /\ canonical (p_pitch (player Sample.fresh))
  /\ canonical (p_yaw (player Sample.fresh))
  /\ p_pitch (player (volley (3 # 4) (1 # 2) 300 Sample.fresh)) == -4.4
  /\ ~ canonical (p_pitch (player (volley (3 # 4) (1 # 2) 300 Sample.fresh))).
Proof.
  destruct (volley_recoil (3 # 4) (1 # 2) 300 Sample.fresh eq_refl)
    as (_ & Hpitch & _ & Hreach).
  split; [apply Hreach; apply reach_initial|].
  split; [split; discriminate|]. split; [split; discriminate|].
  split; [rewrite Hpitch; reflexivity|].
  intros [Hlo _]. rewrite Hpitch in Hlo. apply Hlo. reflexivity.
Qed.

Lemma orientation_after_update_witness :
  ((forall a, canonical (normalizeRadians a))
   /\ canonical (p_yaw (player (handleMouseMoveEvent 5000 0 Sample.fresh)))
   /\ canonical
        (p_pitch (player (handleMouseMoveEvent 5000 0 Sample.fresh))))
  /\ (windowPlayer Sample.fresh = false
      /\ player (handleCameraMove 0 10000 Sample.fresh)
         = player Sample.fresh)
  /\ (windowPlayer Sample.exposed = true
      /\ - (Math_PI / 2 - 0.1)
         <= p_pitch (player (handleCameraMove 0 10000 Sample.exposed))
      /\ p_pitch (player (handleCameraMove 0 10000 Sample.exposed))
         <= Math_PI / 2 - 0.1
      /\ canonical
           (p_pitch (player (handleCameraMove 0 10000 Sample.exposed)))
      /\ p_yaw (player (handleCameraMove 0 10000 Sample.exposed))
         = p_yaw (player Sample.exposed) + 0.002 * 0)
  /\ (0 <= (1 # 2) < 1
      /\ p_pitch (player Sample.fresh) - 0.02
         < p_pitch (player (fire (1 # 2) (1 # 2) Sample.fresh))
      /\ p_pitch (player (fire (1 # 2) (1 # 2) Sample.fresh))
         <= p_pitch (player Sample.fresh)
      /\ p_yaw (player Sample.fresh) - 0.01
         <= p_yaw (player (fire (1 # 2) (1 # 2) Sample.fresh))
      /\ p_yaw (player (fire (1 # 2) (1 # 2) Sample.fresh))
         < p_yaw (player Sample.fresh) + 0.01).
Proof.
  destruct (orientation_after_update (H := Sample.env))
    as (Hmouse & Hunseen & Hcamera & Hrecoil).
  assert (Hhalf : 0 <= (1 # 2) < 1) by (split; [discriminate | reflexivity]).
  split; [|split; [|split]].
  - split; [exact wrap_canonical|].
    exact (Hmouse Sample.fresh 5000 0 wrap_canonical).
  - split; [reflexivity|]. exact (Hunseen Sample.fresh 0 10000 eq_refl).
  - split; [reflexivity|]. exact (Hcamera Sample.exposed 0 10000 eq_refl).
  - split; [exact Hhalf|].
    exact (Hrecoil Sample.fresh (1 # 2) (1 # 2) Hhalf Hhalf).
Defined.


Lemma fire_without_snapshot_witness :
  gameState Sample.fresh = None
  /\ onKeyDown "f" (1 # 2) (1 # 2) Sample.fresh
     = Some (fire (1 # 2) (1 # 2) Sample.fresh)
  /\ shoot (1 # 2) (1 # 2) Sample.fresh
     = Some (fire (1 # 2) (1 # 2) Sample.fresh)
  /\ p_actions (player (fire (1 # 2) (1 # 2) Sample.fresh))
     = p_actions (player Sample.fresh)
       ++ [mkEntity SHOOT (p_x (player Sample.fresh))
             (p_y (player Sample.fresh)) (p_z (player Sample.fresh))
             (v0 (aim (player Sample.fresh))) (v1 (aim (player Sample.fresh)))
             (v2 (aim (player Sample.fresh)))]
  /\ p_pitch (player (fire (1 # 2) (1 # 2) Sample.fresh))
     = p_pitch (player Sample.fresh) - 0.02 * (1 # 2)
  /\ p_yaw (player (fire (1 # 2) (1 # 2) Sample.fresh))
     = p_yaw (player Sample.fresh) + (0.02 * (1 # 2) - 0.01)
  /\ (forall c1 c1',
        shoot (1 # 2) (1 # 2) c1 = Some c1' ->
        c1' = fire (1 # 2) (1 # 2) c1
        \/ (c1' = c1
            /\ exists l g, gameState c1 = Some l /\ heap c1 !! l = Some g
                           /\ isCurrentPlayerAlive g = false)).
Proof.
  split; [reflexivity|].
  exact (fire_without_snapshot (1 # 2) (1 # 2) Sample.fresh eq_refl).
Defined.
(** * The further properties on the sample page *)

(** A result that is there is the one [default] picks. *)
Lemma Some_default {A : Type} (x : option A) (d : A) :
  match x with Some _ => true | None => false end = true ->
  x = Some (default d x).
Proof. destruct x; [reflexivity | discriminate]. Qed.

Lemma frame_ends_on_or_above_ground_witness :
  gameMap Sample.jumping = Some (Sample.newMap 42)
  /\ keysReady Sample.jumping
  /\ exists c',
       handleKeys 1 Sample.jumping = Some c'
       /\ getY (Sample.newMap 42) (p_x (player c')) (p_z (player c'))
          + PLAYER_HALF_HEIGHT <= p_y (player c').
Proof.
  assert (Hready : keysReady Sample.jumping) by (vm_compute; lia).
  split; [reflexivity|]. split; [exact Hready|].
  exact (frame_ends_on_or_above_ground 1 Sample.jumping (Sample.newMap 42)
           eq_refl Hready).
Defined.

Lemma frame_moves_by_its_velocity_witness :
  gameMap Sample.forwardHeld = Some (Sample.newMap 42)
  /\ keysReady Sample.forwardHeld
  /\ exists c',
       handleKeys 1 Sample.forwardHeld = Some c'
       /\ p_x (player c')
          = p_x (player Sample.forwardHeld) + 1 * p_dx (player c')
       /\ p_z (player c')
          = p_z (player Sample.forwardHeld) + 1 * p_dz (player c')
       /\ p_name (player c') = p_name (player Sample.forwardHeld)
       /\ p_pitch (player c') = p_pitch (player Sample.forwardHeld)
       /\ p_yaw (player c') = p_yaw (player Sample.forwardHeld)
       /\ p_actions (player c') = p_actions (player Sample.forwardHeld).
Proof.
  assert (Hready : keysReady Sample.forwardHeld) by (vm_compute; lia).
  split; [reflexivity|]. split; [exact Hready|].
  exact (frame_moves_by_its_velocity 1 Sample.forwardHeld
           (Sample.newMap 42) eq_refl Hready).
Defined.

Lemma falling_frame_loses_height_witness :
  gameMap Sample.inMatch = Some (Sample.newMap 42)
  /\ handleKeys (1 # 10) Sample.inMatch = Some Scenes.fallen
  /\ 0 < (1 # 10)
  /\ 0 < GRAVITY
  /\ p_dy (player Sample.inMatch) <= 0
  /\ getY (Sample.newMap 42) (p_x (player Scenes.fallen))
       (p_z (player Scenes.fallen)) + PLAYER_HALF_HEIGHT
     < p_y (player Scenes.fallen)
  /\ p_y (player Scenes.fallen) < p_y (player Sample.inMatch)
  /\ p_dy (player Scenes.fallen) < p_dy (player Sample.inMatch).
Proof.
  assert (Hmap : gameMap Sample.inMatch = Some (Sample.newMap 42))
    by reflexivity.
  assert (Hrun : handleKeys (1 # 10) Sample.inMatch = Some Scenes.fallen)
    by (apply Some_default; vm_compute; reflexivity).
  assert (Hdt : 0 < (1 # 10)) by reflexivity.
  assert (Hg : 0 < GRAVITY) by reflexivity.
  assert (Hdy : p_dy (player Sample.inMatch) <= 0)
    by (vm_compute; discriminate).
  assert (Habove :
    getY (Sample.newMap 42) (p_x (player Scenes.fallen))
      (p_z (player Scenes.fallen)) + PLAYER_HALF_HEIGHT
    < p_y (player Scenes.fallen)) by (vm_compute; reflexivity).
  split; [exact Hmap|]. split; [exact Hrun|]. split; [exact Hdt|].
  split; [exact Hg|]. split; [exact Hdy|]. split; [exact Habove|].
  exact (falling_frame_loses_height (1 # 10) Sample.inMatch Scenes.fallen
           (Sample.newMap 42) Hmap Hrun Hdt Hg Hdy Habove).
Defined.

Lemma map_overlay_after_frame_witness :
  gameMap Sample.forwardHeld = Some (Sample.newMap 42)
  /\ keysReady Sample.forwardHeld
  /\ exists c' keyM keyEscape,
       handleKeys 1 Sample.forwardHeld = Some c'
       /\ updateKeys (keys Sample.forwardHeld) !! KEY_M = Some keyM
       /\ updateKeys (keys Sample.forwardHeld) !! KEY_ESCAPE
          = Some keyEscape
       /\ mapOpen c' =
            if (downCount keyM =? 1)%Z
            then negb (mapOpen Sample.forwardHeld)
            else if (downCount keyEscape =? 1)%Z then false
            else mapOpen Sample.forwardHeld.
Proof.
  assert (Hready : keysReady Sample.forwardHeld) by (vm_compute; lia).
  split; [reflexivity|]. split; [exact Hready|].
  exact (map_overlay_after_frame 1 Sample.forwardHeld (Sample.newMap 42)
           eq_refl Hready).
Defined.

Lemma frame_outside_match_draws_hud_only_witness :
  keysReady Sample.fresh
  /\ gameState Sample.fresh = None
  /\ exists c',
       render 16 Sample.fresh = Some c'
       /\ glCalls c' = glCalls Sample.fresh ++ [DrawHud]
       /\ dynamicBuffers c' = dynamicBuffers Sample.fresh
       /\ staticBuffers c' = staticBuffers Sample.fresh.
Proof.
  assert (Hready : keysReady Sample.fresh) by (vm_compute; lia).
  split; [exact Hready|]. split; [reflexivity|].
  exact (frame_outside_match_draws_hud_only 16 Sample.fresh Hready
           (or_introl eq_refl)).
Defined.

Lemma frame_before_setup_fails_witness :
  gameState Scenes.arrived = Some 1%positive
  /\ heap Scenes.arrived !! 1%positive = Some Sample.match1
  /\ gameId Sample.match1 <> LOBBY_ID
  /\ dynamicBuffers Scenes.arrived = None
  /\ render 16 Scenes.arrived = None.
Proof.
  assert (Hgame : gameId Sample.match1 <> LOBBY_ID) by discriminate.
  split; [reflexivity|]. split; [reflexivity|]. split; [exact Hgame|].
  split; [reflexivity|].
  exact (frame_before_setup_fails 16 Scenes.arrived 1%positive
           Sample.match1 eq_refl eq_refl Hgame (or_introl eq_refl)).
Defined.

Lemma match_setup_then_frame_witness :
  heap Sample.fresh !! 1%positive = None
  /\ gameId Sample.match1 <> LOBBY_ID
  /\ keysReady Sample.fresh
  /\ exists c1 c2 c3,
       dispatch (Update 1%positive Sample.match1) Sample.fresh = Some c1
       /\ dispatch InitGame c1 = Some c2
       /\ dispatch (Frame 16) c2 = Some c3
       /\ gameMap c3 = Some (newGameMap (seed Sample.match1))
       /\ dynamicBuffers c3
          = Some (frameQuads Sample.match1 Sample.fresh)
       /\ glCalls c3 =
            glCalls Sample.fresh
            ++ [UpdateBuffers (frameQuads Sample.match1 Sample.fresh);
                ResetGl; SetupCamera;
                Render (worldQuads (newGameMap (seed Sample.match1)));
                Render (frameQuads Sample.match1 Sample.fresh); DrawHud].
Proof.
  assert (Hgame : gameId Sample.match1 <> LOBBY_ID) by discriminate.
  assert (Hready : keysReady Sample.fresh) by (vm_compute; lia).
  split; [reflexivity|]. split; [exact Hgame|]. split; [exact Hready|].
  exact (match_setup_then_frame 16 Sample.fresh 1%positive Sample.match1
           eq_refl Hgame Hready).
Defined.

Lemma actions_only_grow_witness :
  dispatch (KeyDown "f" (1 # 2) (1 # 2)) Sample.fresh
  = Some (fire (1 # 2) (1 # 2) Sample.fresh)
  /\ onClick aliveCount 0 true false None 0 0 (Scenes.page Scenes.inLobby)
     = Some Scenes.joinedPage
  /\ (p_actions (player (fire (1 # 2) (1 # 2) Sample.fresh))
      = p_actions (player Sample.fresh)
      \/ p_actions (player (fire (1 # 2) (1 # 2) Sample.fresh))
         = p_actions (player Sample.fresh)
           ++ [mkEntity SHOOT (p_x (player Sample.fresh))
                 (p_y (player Sample.fresh)) (p_z (player Sample.fresh))
                 (v0 (aim (player Sample.fresh)))
                 (v1 (aim (player Sample.fresh)))
                 (v2 (aim (player Sample.fresh)))])
  /\ (p_actions (player (client Scenes.joinedPage))
      = p_actions (player (client (Scenes.page Scenes.inLobby)))
      \/ exists eventType,
           (eventType = SHOOT \/ eventType = JOIN)
           /\ p_actions (player (client Scenes.joinedPage))
              = p_actions (player (client (Scenes.page Scenes.inLobby)))
                ++ [mkEntity eventType
                      (p_x (player (client (Scenes.page Scenes.inLobby))))
                      (p_y (player (client (Scenes.page Scenes.inLobby))))
                      (p_z (player (client (Scenes.page Scenes.inLobby))))
                      (v0 (aim (player (client
                                          (Scenes.page Scenes.inLobby)))))
                      (v1 (aim (player (client
                                          (Scenes.page Scenes.inLobby)))))
                      (v2 (aim (player (client
                                          (Scenes.page Scenes.inLobby)))))]).
Proof.
  assert (Hclick :
    onClick aliveCount 0 true false None 0 0 (Scenes.page Scenes.inLobby)
    = Some Scenes.joinedPage)
    by (apply Some_default; vm_compute; reflexivity).
  destruct (actions_only_grow aliveCount) as [Hlisteners Hclicks].
  split; [reflexivity|]. split; [exact Hclick|]. split.
  - exact (Hlisteners (KeyDown "f" (1 # 2) (1 # 2)) Sample.fresh
             (fire (1 # 2) (1 # 2) Sample.fresh) eq_refl).
  - exact (Hclicks 0%Z true false None 0 0 (Scenes.page Scenes.inLobby)
             Scenes.joinedPage Hclick).
Defined.

Lemma only_frames_move_player_witness :
  dispatch (KeyDown "f" (1 # 2) (1 # 2)) Sample.fresh
  = Some (fire (1 # 2) (1 # 2) Sample.fresh)
  /\ (forall now, KeyDown "f" (1 # 2) (1 # 2) <> Frame now)
  /\ p_x (player (fire (1 # 2) (1 # 2) Sample.fresh))
     = p_x (player Sample.fresh)
  /\ p_y (player (fire (1 # 2) (1 # 2) Sample.fresh))
     = p_y (player Sample.fresh)
  /\ p_z (player (fire (1 # 2) (1 # 2) Sample.fresh))
     = p_z (player Sample.fresh)
  /\ p_dx (player (fire (1 # 2) (1 # 2) Sample.fresh))
     = p_dx (player Sample.fresh)
  /\ p_dy (player (fire (1 # 2) (1 # 2) Sample.fresh))
     = p_dy (player Sample.fresh)
  /\ p_dz (player (fire (1 # 2) (1 # 2) Sample.fresh))
     = p_dz (player Sample.fresh).
Proof.
  assert (Hlistener : forall now, KeyDown "f" (1 # 2) (1 # 2) <> Frame now)
    by discriminate.
  split; [reflexivity|]. split; [exact Hlistener|].
  exact (only_frames_move_player (KeyDown "f" (1 # 2) (1 # 2)) Sample.fresh
           (fire (1 # 2) (1 # 2) Sample.fresh) eq_refl Hlistener).
Defined.

Lemma joystick_never_presses_opposing_keys_witness :
  windowPlayer Sample.exposed = true
  /\ windowKeys Sample.exposed = true
  /\ (256 <= length (keys Sample.exposed))%nat
  /\ exists c',
       onMessage (JOYSTICK_MOVE 0 1) 0 0 Sample.exposed = Some c'
       /\ isDown (keys c') KEY_W = Qltb (Math_sin 0 * 1) (-0.3)
       /\ isDown (keys c') KEY_S = Qltb 0.3 (Math_sin 0 * 1)
       /\ isDown (keys c') KEY_A = Qltb (Math_cos 0 * 1) (-0.3)
       /\ isDown (keys c') KEY_D = Qltb 0.3 (Math_cos 0 * 1)
       /\ isDown (keys c') KEY_W && isDown (keys c') KEY_S = false
       /\ isDown (keys c') KEY_A && isDown (keys c') KEY_D = false.
Proof.
  assert (Hlen : (256 <= length (keys Sample.exposed))%nat)
    by (vm_compute; lia).
  split; [reflexivity|]. split; [reflexivity|]. split; [exact Hlen|].
  exact (joystick_never_presses_opposing_keys 0 1 0 0 Sample.exposed
           eq_refl eq_refl Hlen).
Defined.

Lemma weak_joystick_releases_keys_witness :
  windowPlayer Sample.exposed = true
  /\ windowKeys Sample.exposed = true
  /\ (256 <= length (keys Sample.exposed))%nat
  /\ -1 <= Math_cos 0 <= 1
  /\ -1 <= Math_sin 0 <= 1
  /\ 0 <= (1 # 5) <= 0.3
  /\ exists c',
       onMessage (JOYSTICK_MOVE 0 (1 # 5)) 0 0 Sample.exposed = Some c'
       /\ isDown (keys c') KEY_W = false /\ isDown (keys c') KEY_S = false
       /\ isDown (keys c') KEY_A = false /\ isDown (keys c') KEY_D = false.
Proof.
  assert (Hlen : (256 <= length (keys Sample.exposed))%nat)
    by (vm_compute; lia).
  assert (Hcos : -1 <= Math_cos 0 <= 1) by (split; discriminate).
  assert (Hsin : -1 <= Math_sin 0 <= 1) by (split; discriminate).
  assert (Hforce : 0 <= (1 # 5) <= 0.3) by (split; discriminate).
  split; [reflexivity|]. split; [reflexivity|]. split; [exact Hlen|].
  split; [exact Hcos|]. split; [exact Hsin|]. split; [exact Hforce|].
  exact (weak_joystick_releases_keys 0 (1 # 5) 0 0 Sample.exposed
           eq_refl eq_refl Hlen Hcos Hsin Hforce).
Defined.

Lemma joystick_touches_four_flags_witness :
  (256 <= length (keys Sample.exposed))%nat
  /\ exists c',
       onMessage (JOYSTICK_MOVE 0 1) 0 0 Sample.exposed = Some c'
       /\ sameButDown [KEY_W; KEY_S; KEY_A; KEY_D] (keys Sample.exposed)
            (keys c')
       /\ player c' = player Sample.exposed.
Proof.
  assert (Hlen : (256 <= length (keys Sample.exposed))%nat)
    by (vm_compute; lia).
  split; [exact Hlen|].
  exact (joystick_touches_four_flags 0 1 0 0 Sample.exposed Hlen).
Defined.

Lemma bridge_inert_without_window_player_witness :
  windowPlayer Scenes.unbridged = false
  /\ (exists deltaX deltaY, CAMERA_MOVE 5 5 = CAMERA_MOVE deltaX deltaY)
  /\ exists c',
       onMessage (CAMERA_MOVE 5 5) 0 0 Scenes.unbridged = Some c'
       /\ keys c' = keys Scenes.unbridged
       /\ player c' = player Scenes.unbridged.
Proof.
  assert (Hmsg : exists deltaX deltaY : Q,
                   CAMERA_MOVE 5 5 = CAMERA_MOVE deltaX deltaY)
    by (exists 5, 5; reflexivity).
  split; [reflexivity|]. split; [exact Hmsg|].
  exact (bridge_inert_without_window_player (CAMERA_MOVE 5 5) 0 0
           Scenes.unbridged eq_refl (or_intror (or_intror Hmsg))).
Defined.

Lemma click_fires_exactly_when_witness :
  onClick aliveCount 0 false false None (1 # 2) (1 # 2)
    (Scenes.page Scenes.locked) = Some Scenes.shotPage
  /\ (client Scenes.shotPage
      = fire (1 # 2) (1 # 2) (client (Scenes.page Scenes.locked))
      <-> (0 = 0
           /\ mapOpen (client (Scenes.page Scenes.locked)) = false
           /\ pointerLocked (client (Scenes.page Scenes.locked)) = true
           /\ exists l g,
                gameState (client (Scenes.page Scenes.locked)) = Some l
                /\ heap (client (Scenes.page Scenes.locked)) !! l = Some g
                /\ gameId g <> LOBBY_ID
                /\ isCurrentPlayerAlive g = true
                /\ aliveCount g <> 1
                /\ isStarted g = true))%Z.
Proof.
  assert (Hclick :
    onClick aliveCount 0 false false None (1 # 2) (1 # 2)
      (Scenes.page Scenes.locked) = Some Scenes.shotPage)
    by (apply Some_default; vm_compute; reflexivity).
  split; [exact Hclick|].
  exact (click_fires_exactly_when aliveCount 0 false false None (1 # 2)
           (1 # 2) (Scenes.page Scenes.locked) Scenes.shotPage Hclick).
Defined.

Lemma lobby_click_joins_witness :
  gameState (client (Scenes.page Scenes.inLobby)) = Some 1%positive
  /\ heap (client (Scenes.page Scenes.inLobby)) !! 1%positive
     = Some Scenes.lobbySnapshot
  /\ gameId Scenes.lobbySnapshot = LOBBY_ID
  /\ exists pg',
       onClick aliveCount 0 true false None 0 0
         (Scenes.page Scenes.inLobby) = Some pg'
       /\ p_actions (player (client pg'))
          = p_actions (player (client (Scenes.page Scenes.inLobby)))
            ++ [mkEntity JOIN
                  (p_x (player (client (Scenes.page Scenes.inLobby))))
                  (p_y (player (client (Scenes.page Scenes.inLobby))))
                  (p_z (player (client (Scenes.page Scenes.inLobby))))
                  (v0 (aim (player (client (Scenes.page Scenes.inLobby)))))
                  (v1 (aim (player (client (Scenes.page Scenes.inLobby)))))
                  (v2 (aim (player (client (Scenes.page Scenes.inLobby)))))]
       /\ p_pitch (player (client pg'))
          = p_pitch (player (client (Scenes.page Scenes.inLobby)))
       /\ p_yaw (player (client pg'))
          = p_yaw (player (client (Scenes.page Scenes.inLobby)))
       /\ exists sound,
            Audio.gunfire (audio pg')
            = Audio.gunfire (audio (Scenes.page Scenes.inLobby)) ++ [sound]
            /\ Audio.startGain sound == 10
            /\ Audio.stopTime sound
               == Audio.currentTime (audio (Scenes.page Scenes.inLobby))
                  + 0.2.
Proof.
  split; [reflexivity|]. split; [reflexivity|]. split; [reflexivity|].
  exact (lobby_click_joins aliveCount None 0 0 (Scenes.page Scenes.inLobby)
           1%positive Scenes.lobbySnapshot eq_refl eq_refl eq_refl).
Defined.

Lemma prompted_name_is_kept_witness :
  gameState (client (Scenes.page Scenes.inLobby)) = Some 1%positive
  /\ heap (client (Scenes.page Scenes.inLobby)) !! 1%positive
     = Some Scenes.lobbySnapshot
  /\ gameId Scenes.lobbySnapshot = LOBBY_ID
  /\ exists pg',
       onClick aliveCount 0 false true (Some ["Z"%char]) 0 0
         (Scenes.page Scenes.inLobby) = Some pg'
       /\ p_name (player (client pg')) = ["Z"%char]
       /\ storage pg' !! Storage.nameKey = Some ["Z"%char]
       /\ p_name (player (client
            (load ["g"%char] Sample.noKeys true true true false 800 600
               (storage pg'))))
          = ["Z"%char].
Proof.
  split; [reflexivity|]. split; [reflexivity|]. split; [reflexivity|].
  exact (prompted_name_is_kept aliveCount false (Some ["Z"%char]) 0 0
           (Scenes.page Scenes.inLobby) 1%positive Scenes.lobbySnapshot
           ["g"%char] Sample.noKeys true true true false 800 600
           eq_refl eq_refl eq_refl).
Defined.

Lemma exit_button_after_resize_witness :
  (0 <= 801 < 4294967296)%Z
  /\ (0 <= 600 < 4294967296)%Z
  /\ Hud.centerX (Hud.onMouseMove 430 370
                    (Hud.handleResizeEvent 801 600 Hud.initial))
     = (801 / 2)%Z
  /\ Hud.centerY (Hud.onMouseMove 430 370
                    (Hud.handleResizeEvent 801 600 Hud.initial))
     = (600 / 2)%Z
  /\ (Hud.isMouseOverExitButton
        (Hud.onMouseMove 430 370
           (Hud.handleResizeEvent 801 600 Hud.initial)) = true
      <-> inject_Z (801 / 2) - 60 < 430 /\ 430 < inject_Z (801 / 2) + 60
          /\ inject_Z (600 / 2) + 50 < 370
          /\ 370 < inject_Z (600 / 2) + 90).
Proof.
  assert (Hw : (0 <= 801 < 4294967296)%Z) by lia.
  assert (Hh : (0 <= 600 < 4294967296)%Z) by lia.
  split; [exact Hw|]. split; [exact Hh|].
  exact (exit_button_after_resize 801 600 430 370 Hud.initial Hw Hh).
Defined.

Lemma farther_gunfire_is_no_louder_witness :
  0 <= 0
  /\ 0 <= 100
  /\ 100 <= 500
  /\ exists near far,
       Audio.playGunfire 0 None 5 = Some near
       /\ Audio.playGunfire 100 None 5 = Some far
       /\ Audio.startGain far <= Audio.startGain near.
Proof.
  assert (H0 : 0 <= 0) by discriminate.
  assert (H1 : 0 <= 100) by discriminate.
  assert (H2 : 100 <= 500) by discriminate.
  split; [exact H0|]. split; [exact H1|]. split; [exact H2|].
  exact (farther_gunfire_is_no_louder 0 100 None None 5 5 H0 H1 H2).
Defined.

Lemma gunfire_envelope_times_witness :
  Audio.playGunfire 100 (Some 0) 5 = Some Scenes.sound
  /\ Audio.startTime Scenes.sound = 5
  /\ (Some 0 = None \/ Some 0 = Some 0 -> Audio.stopTime Scenes.sound == 5 + 1)
  /\ (forall l, Some 0 = Some l -> ~ l == 0 ->
                Audio.stopTime Scenes.sound = 5 + l)
  /\ (0 < Audio.lengthOr1 (Some 0) ->
      5 < Audio.rampEnd Scenes.sound
      /\ Audio.rampEnd Scenes.sound < Audio.stopTime Scenes.sound).
Proof.
  assert (Hheard : Audio.playGunfire 100 (Some 0) 5 = Some Scenes.sound)
    by reflexivity.
  split; [exact Hheard|].
  exact (gunfire_envelope_times 100 (Some 0) 5 Scenes.sound Hheard).
Defined.


Lemma music_starts_after_resume_witness :
  Audio.oneSource Scenes.musicLoaded
  /\ Audio.musicBuffer Scenes.musicLoaded = Some 7%nat
  /\ Audio.suspended Scenes.musicLoaded = true
  /\ Audio.resuming Scenes.musicLoaded = []
  /\ Audio.playing
       (Audio.run [Audio.SetMusicEnabled true] Scenes.musicLoaded)
     = Audio.playing Scenes.musicLoaded
  /\ Audio.playing
       (Audio.run [Audio.SetMusicEnabled true; Audio.SetMusicEnabled false]
          Scenes.musicLoaded) = []
  /\ Audio.playing
       (Audio.run [Audio.SetMusicEnabled true; Audio.SetMusicEnabled false;
                   Audio.ResumeSettled true] Scenes.musicLoaded)
     = [Audio.created Scenes.musicLoaded].
Proof.
  assert (Hone : Audio.oneSource Scenes.musicLoaded)
    by (split; [reflexivity | discriminate]).
  split; [exact Hone|]. split; [reflexivity|]. split; [reflexivity|].
  split; [reflexivity|].
  exact (music_starts_after_resume Scenes.musicLoaded 7 Hone eq_refl eq_refl
           eq_refl).
Defined.
